(** * uAMP-sim: the simulation engine of [uamp_sim.py]

    A shallow embedding of the class [Simulator] (module registry, event
    bus, alarm scheduler, trace feeder, run loop and debug controller)
    together with the properties of the engine that its documentation
    states.

    Python objects are modelled by values.  The simulator object is the
    record [Simulator]; every method takes the simulator and returns the
    updated one inside [Result], which also carries Python exceptions.
    Code that the engine only calls (event handlers, event filters, the
    fire action of an alarm, the [finish] hook of a module, the printed
    form of an event) is a parameter of the development, and so are the
    builtin [int] on strings and the lookahead of the trace reader. *)

From Stdlib Require Import ZArith Lia Sorted Ascii String.
From stdpp Require Import gmap strings list fin_maps sorting.

Local Open Scope string_scope.
Local Open Scope list_scope.
Local Open Scope Z_scope.

(** ** Results of Python code *)

Inductive PyError :=
| TypeError (msg : string)
| Exception (msg : string)
| IndexError
| AttributeError
| EOFError
| RuntimeError (msg : string)
| KeyError (key : string)
| SystemExit (code : Z).

(** [Ok a]: normal return; [Raise e]: an exception left the call;
    [Diverge]: the model ran out of fuel (only the loops whose length the
    callbacks control take fuel). *)
Inductive Result (A : Type) :=
| Ok (a : A)
| Raise (e : PyError)
| Diverge.
Arguments Ok {A} a.
Arguments Raise {A} e.
Arguments Diverge {A}.

Global Instance Result_ret : MRet Result := fun A a => Ok a.

Global Instance Result_bind : MBind Result := fun A B k r =>
  match r with
  | Ok a => k a
  | Raise e => Raise e
  | Diverge => Diverge
  end.

(** ** Data model *)

(** [class Priority] *)
Module Priority.
Definition DEBUG_FIRST : Z := 0.
Definition ALARM : Z := 5.
Definition TRACE : Z := 10.
Definition DEBUG_LAST : Z := 1024.
End Priority.

(** Modelled from the spec: the enumeration [EventType] of module [events]
    is not part of the sources.  The engine names two members, [SIM_DEBUG]
    and [SIM_ALARM]; every other member is a domain event type. *)
Inductive EventType :=
| SIM_DEBUG
| SIM_ALARM
| DOMAIN (tag : nat).

Global Instance EventType_eq_dec : EqDecision EventType.
Proof. solve_decision. Defined.

Definition EventType_code (t : EventType) : nat :=
  match t with
  | SIM_DEBUG => 0%nat
  | SIM_ALARM => 1%nat
  | DOMAIN n => S (S n)
  end.

Definition EventType_of_code (n : nat) : EventType :=
  match n with
  | O => SIM_DEBUG
  | S O => SIM_ALARM
  | S (S k) => DOMAIN k
  end.

Global Instance EventType_countable : Countable EventType.
Proof.
  apply (inj_countable' EventType_code EventType_of_code).
  intros []; reflexivity.
Defined.

(** Modelled from the spec: the event classes of module [events] are not
    part of the sources.  An event has a [timestamp] (a number, or [None]
    while unset), an [event_type] and a payload; an alarm also has a
    [period], a [repeating] flag and a fire action. *)
Record AlarmData := {
  period : Z;
  repeating : bool;
  fire_action : nat
}.

Record Event := {
  timestamp : option Z;
  event_type : EventType;
  payload : nat;
  alarm : option AlarmData
}.

Definition set_timestamp (t : option Z) (ev : Event) : Event :=
  {| timestamp := t; event_type := event_type ev;
     payload := payload ev; alarm := alarm ev |}.

(** Python's truth value of [event.timestamp]: [None] and the number zero
    are false. *)
Definition truthy (t : option Z) : bool :=
  match t with
  | None => false
  | Some z => negb (z =? 0)
  end.

(** Modelled from the spec: the enumeration of module types and the class
    [SimModule] live in [sim_interface], which is not part of the sources.
    A member of the enumeration is identified by its [value]. *)
Record ModuleType := { value : Z }.

Record SimModule := {
  get_name : string;
  get_type : ModuleType;
  mod_ident : nat
}.

(** What a caller may hand to [register]: a [SimModule] or anything else. *)
Inductive PyObject :=
| IsSimModule (m : SimModule)
| NotSimModule (descr : string).

(** Keys of [module_type_map].  [register] stores under the [value] of the
    module type; a lookup with the enumeration member itself finds such a
    key only when members compare (and hash) equal to their values. *)
Inductive PyKey :=
| KMember (t : ModuleType)
| KValue (v : Z).

Global Instance ModuleType_eq_dec : EqDecision ModuleType.
Proof. solve_decision. Defined.
Global Instance SimModule_eq_dec : EqDecision SimModule.
Proof. solve_decision. Defined.
Global Instance PyKey_eq_dec : EqDecision PyKey.
Proof. solve_decision. Defined.

Definition PyKey_code (k : PyKey) : Z + Z :=
  match k with
  | KMember t => inl (value t)
  | KValue v => inr v
  end.

Definition PyKey_of_code (c : Z + Z) : PyKey :=
  match c with
  | inl v => KMember {| value := v |}
  | inr v => KValue v
  end.

Global Instance PyKey_countable : Countable PyKey.
Proof.
  apply (inj_countable' PyKey_code PyKey_of_code).
  intros [[v]|v]; reflexivity.
Defined.

(** Handlers and filters are Python callables; the model names them. *)
Definition HandlerId := nat.
Definition FilterId := nat.

(** The sequence stored under an event type is a [list] when [subscribe]
    created it and a [deque] when the [defaultdict] did. *)
Inductive SeqKind := PyList | PyDeque.

Record Listeners := {
  seq_kind : SeqKind;
  seq_items : list (option FilterId * HandlerId)
}.

(** ** The event queue *)

(** Modelled from the spec: [utils.PriorityQueue] is not part of the
    sources.  Entries are ordered by the composite key
    (timestamp, priority class), ascending by timestamp and then by
    priority class; [pop] and [peek] give the minimum.  The queue is kept
    as a list sorted by key, equal keys in insertion order.  An unset
    timestamp sorts before every number. *)
Definition Key : Type := option Z * Z.

Definition ts_ltb (a b : option Z) : bool :=
  match a, b with
  | None, None => false
  | None, Some _ => true
  | Some _, None => false
  | Some x, Some y => x <? y
  end.

Definition key_leb (k1 k2 : Key) : bool :=
  if ts_ltb (fst k1) (fst k2) then true
  else if ts_ltb (fst k2) (fst k1) then false
  else snd k1 <=? snd k2.

Definition PriorityQueue : Type := list (Key * Event).

Fixpoint pq_push (ev : Event) (k : Key) (q : PriorityQueue) : PriorityQueue :=
  match q with
  | [] => [(k, ev)]
  | (k', ev') :: q' =>
      if key_leb k' k then (k', ev') :: pq_push ev k q'
      else (k, ev) :: q
  end.

Definition pq_peek (q : PriorityQueue) : option Event :=
  match q with
  | [] => None
  | (_, ev) :: _ => Some ev
  end.

Definition pq_pop (q : PriorityQueue) : PriorityQueue := tail q.

Definition pq_size (q : PriorityQueue) : Z := Z.of_nat (length q).

Definition pq_empty (q : PriorityQueue) : bool :=
  match q with
  | [] => true
  | _ => false
  end.

(** The events of a queue in the order in which repeated [pop] returns
    them. *)
Definition pq_drain (q : PriorityQueue) : list Event := map snd q.

(** ** The trace reader *)

(** Modelled from the spec: the trace reader of module [trace_reader] is
    not part of the sources.  It holds the events not yet pulled;
    [end_of_trace] tells whether any is left and [get_events count]
    consumes up to [count] of them.  [peek_event] shows the next one, or
    none when the trace is exhausted or the reader's current buffer is
    empty; whether the reader has the next event at hand, for what is
    left of the trace, is up to the reader and is the parameter
    [lookahead]. *)
Definition TraceReader : Type := list Event.

Definition end_of_trace (tr : TraceReader) : bool :=
  match tr with
  | [] => true
  | _ => false
  end.

Definition peek_event (lookahead : TraceReader -> bool) (tr : TraceReader)
    : option Event :=
  if lookahead tr then head tr else None.

Definition get_events (count : nat) (tr : TraceReader) : list Event * TraceReader :=
  (take count tr, drop count tr).

(** ** The simulator object *)

Record Simulator := {
  sim_modules : list (string * SimModule);
  module_type_map : gmap PyKey (list SimModule);
  event_queue : PriorityQueue;
  current_time : option Z;
  event_listeners : gmap EventType Listeners;
  trace_reader : TraceReader;
  verbose : bool;
  debug_mode : bool;
  debug_interval : Z;
  debug_interval_cnt : Z;
  console_in : list string;
  console_out : list string
}.

(** [Simulator.__init__]; the console is the process's standard input
    (the lines still to be read) and output (the lines written). *)
Definition init (input : list string) : Simulator :=
  {| sim_modules := [];
     module_type_map := ∅;
     event_queue := [];
     current_time := None;
     event_listeners := ∅;
     trace_reader := [];
     verbose := false;
     debug_mode := false;
     debug_interval := 1;
     debug_interval_cnt := 0;
     console_in := input;
     console_out := [] |}.

Definition set_sim_modules (x : list (string * SimModule)) (s : Simulator) : Simulator :=
  {| sim_modules := x; module_type_map := module_type_map s;
     event_queue := event_queue s; current_time := current_time s;
     event_listeners := event_listeners s; trace_reader := trace_reader s;
     verbose := verbose s; debug_mode := debug_mode s;
     debug_interval := debug_interval s;
     debug_interval_cnt := debug_interval_cnt s;
     console_in := console_in s; console_out := console_out s |}.

Definition set_module_type_map (x : gmap PyKey (list SimModule)) (s : Simulator) : Simulator :=
  {| sim_modules := sim_modules s; module_type_map := x;
     event_queue := event_queue s; current_time := current_time s;
     event_listeners := event_listeners s; trace_reader := trace_reader s;
     verbose := verbose s; debug_mode := debug_mode s;
     debug_interval := debug_interval s;
     debug_interval_cnt := debug_interval_cnt s;
     console_in := console_in s; console_out := console_out s |}.

Definition set_event_queue (x : PriorityQueue) (s : Simulator) : Simulator :=
  {| sim_modules := sim_modules s; module_type_map := module_type_map s;
     event_queue := x; current_time := current_time s;
     event_listeners := event_listeners s; trace_reader := trace_reader s;
     verbose := verbose s; debug_mode := debug_mode s;
     debug_interval := debug_interval s;
     debug_interval_cnt := debug_interval_cnt s;
     console_in := console_in s; console_out := console_out s |}.

Definition set_current_time (x : option Z) (s : Simulator) : Simulator :=
  {| sim_modules := sim_modules s; module_type_map := module_type_map s;
     event_queue := event_queue s; current_time := x;
     event_listeners := event_listeners s; trace_reader := trace_reader s;
     verbose := verbose s; debug_mode := debug_mode s;
     debug_interval := debug_interval s;
     debug_interval_cnt := debug_interval_cnt s;
     console_in := console_in s; console_out := console_out s |}.

Definition set_event_listeners (x : gmap EventType Listeners) (s : Simulator) : Simulator :=
  {| sim_modules := sim_modules s; module_type_map := module_type_map s;
     event_queue := event_queue s; current_time := current_time s;
     event_listeners := x; trace_reader := trace_reader s;
     verbose := verbose s; debug_mode := debug_mode s;
     debug_interval := debug_interval s;
     debug_interval_cnt := debug_interval_cnt s;
     console_in := console_in s; console_out := console_out s |}.

Definition set_trace_reader (x : TraceReader) (s : Simulator) : Simulator :=
  {| sim_modules := sim_modules s; module_type_map := module_type_map s;
     event_queue := event_queue s; current_time := current_time s;
     event_listeners := event_listeners s; trace_reader := x;
     verbose := verbose s; debug_mode := debug_mode s;
     debug_interval := debug_interval s;
     debug_interval_cnt := debug_interval_cnt s;
     console_in := console_in s; console_out := console_out s |}.

Definition set_verbose (x : bool) (s : Simulator) : Simulator :=
  {| sim_modules := sim_modules s; module_type_map := module_type_map s;
     event_queue := event_queue s; current_time := current_time s;
     event_listeners := event_listeners s; trace_reader := trace_reader s;
     verbose := x; debug_mode := debug_mode s;
     debug_interval := debug_interval s;
     debug_interval_cnt := debug_interval_cnt s;
     console_in := console_in s; console_out := console_out s |}.

Definition set_debug_interval (x : Z) (s : Simulator) : Simulator :=
  {| sim_modules := sim_modules s; module_type_map := module_type_map s;
     event_queue := event_queue s; current_time := current_time s;
     event_listeners := event_listeners s; trace_reader := trace_reader s;
     verbose := verbose s; debug_mode := debug_mode s;
     debug_interval := x;
     debug_interval_cnt := debug_interval_cnt s;
     console_in := console_in s; console_out := console_out s |}.

Definition set_debug_interval_cnt (x : Z) (s : Simulator) : Simulator :=
  {| sim_modules := sim_modules s; module_type_map := module_type_map s;
     event_queue := event_queue s; current_time := current_time s;
     event_listeners := event_listeners s; trace_reader := trace_reader s;
     verbose := verbose s; debug_mode := debug_mode s;
     debug_interval := debug_interval s;
     debug_interval_cnt := x;
     console_in := console_in s; console_out := console_out s |}.

Definition set_console_in (x : list string) (s : Simulator) : Simulator :=
  {| sim_modules := sim_modules s; module_type_map := module_type_map s;
     event_queue := event_queue s; current_time := current_time s;
     event_listeners := event_listeners s; trace_reader := trace_reader s;
     verbose := verbose s; debug_mode := debug_mode s;
     debug_interval := debug_interval s;
     debug_interval_cnt := debug_interval_cnt s;
     console_in := x; console_out := console_out s |}.

(** [print(line)], and the prompt that [input(prompt)] writes. *)
Definition print (line : string) (s : Simulator) : Simulator :=
  {| sim_modules := sim_modules s; module_type_map := module_type_map s;
     event_queue := event_queue s; current_time := current_time s;
     event_listeners := event_listeners s; trace_reader := trace_reader s;
     verbose := verbose s; debug_mode := debug_mode s;
     debug_interval := debug_interval s;
     debug_interval_cnt := debug_interval_cnt s;
     console_in := console_in s; console_out := console_out s ++ [line] |}.

(** ** Strings: [str.split(sep=' ')], and a sample of [int(str)] *)

(** [command.split(sep=' ')]: every single space separates two tokens, so
    two spaces in a row give an empty token. *)
Fixpoint split_space (s : string) : list string :=
  match s with
  | EmptyString => [EmptyString]
  | String c s' =>
      if Ascii.eqb c " "%char then EmptyString :: split_space s'
      else match split_space s' with
           | [] => [String c EmptyString]
           | t :: ts => String c t :: ts
           end
  end.

(** The builtin [int] on a string is a parameter of the engine ([py_int]
    below): it follows Unicode tables that are not modelled.  What comes
    next is a sample of it, [ascii_int], for the examples: base-ten
    numerals in ASCII text of at most 4300 characters, where it answers
    as [int] does; on any other text it answers [None]. *)

(** White space that [int] strips from ASCII text: tab, line feed,
    vertical tab, form feed, carriage return and space. *)
Definition is_space (c : ascii) : bool :=
  let n := Z.of_N (N_of_ascii c) in
  ((9 <=? n) && (n <=? 13)) || (n =? 32).

Fixpoint all_ascii (s : string) : bool :=
  match s with
  | EmptyString => true
  | String c s' => (Z.of_N (N_of_ascii c) <? 128) && all_ascii s'
  end.

Definition digit_val (c : ascii) : option Z :=
  let n := Z.of_N (N_of_ascii c) in
  if (48 <=? n) && (n <=? 57) then Some (n - 48) else None.

Fixpoint all_space (s : string) : bool :=
  match s with
  | EmptyString => true
  | String c s' => is_space c && all_space s'
  end.

Fixpoint lstrip (s : string) : string :=
  match s with
  | EmptyString => EmptyString
  | String c s' => if is_space c then lstrip s' else s
  end.

(** The digits after the first one: a digit, or one underscore followed
    by a digit; white space may close the literal. *)
Fixpoint int_digits (acc : Z) (s : string) : option Z :=
  match s with
  | EmptyString => Some acc
  | String c s' =>
      match digit_val c with
      | Some d => int_digits (acc * 10 + d) s'
      | None =>
          if Ascii.eqb c "_"%char then
            match s' with
            | EmptyString => None
            | String c2 s'' =>
                match digit_val c2 with
                | Some d => int_digits (acc * 10 + d) s''
                | None => None
                end
            end
          else if all_space s then Some acc else None
      end
  end.

Definition int_unsigned (s : string) : option Z :=
  match s with
  | EmptyString => None
  | String c s' =>
      match digit_val c with
      | Some d => int_digits d s'
      | None => None
      end
  end.

Definition ascii_int (s : string) : option Z :=
  if all_ascii s && (Z.of_nat (String.length s) <=? 4300) then
    match lstrip s with
    | String "+"%char r => int_unsigned r
    | String "-"%char r => Z.opp <$> int_unsigned r
    | r => int_unsigned r
    end
  else None.

(** ** Python dictionaries that keep insertion order *)

Fixpoint dict_get {V : Type} (name : string) (d : list (string * V)) : option V :=
  match d with
  | [] => None
  | (k, v) :: d' => if String.eqb k name then Some v else dict_get name d'
  end.

Fixpoint dict_set {V : Type} (name : string) (v : V) (d : list (string * V)) : list (string * V) :=
  match d with
  | [] => [(name, v)]
  | (k, w) :: d' =>
      if String.eqb k name then (k, v) :: d' else (k, w) :: dict_set name v d'
  end.

(** ** The debug controller *)

Definition prompt : string := "(uamp-sim debug) $ ".
Definition usage_interval : string :=
  "Command Usage Error: interval command expects one numerical value".
Definition usage_verbose_arg : string :=
  "Command Usage Error: verbose command expects 'on' or 'off' for argument".
Definition usage_verbose_arity : string :=
  "Command Usage Error: verbose command expects at most one argument".

(** The body of the loop of [Simulator.__debug] for a command that is not
    empty.  [exit(1)] raises [SystemExit].  [py_int] is the builtin [int]
    on a string, [None] standing for [ValueError]. *)
Definition debug_command (py_int : string -> option Z)
    (cmd : string) (args : list string) (s : Simulator) : Result Simulator :=
  if String.eqb cmd "quit" || String.eqb cmd "exit" || String.eqb cmd "q" then
    Raise (SystemExit 1)
  else if String.eqb cmd "interval" then
    match args with
    | [a] =>
        match py_int a with
        | Some n => Ok (set_debug_interval n s)
        | None => Ok (print usage_interval s)
        end
    | _ => Ok (print usage_interval s)
    end
  else if String.eqb cmd "verbose" then
    match args with
    | [] => Ok (set_verbose true s)
    | [a] =>
        if String.eqb a "on" then Ok (set_verbose true s)
        else if String.eqb a "off" then Ok (set_verbose false s)
        else Ok (print usage_verbose_arg s)
    | _ => Ok (print usage_verbose_arity s)
    end
  else Ok s.

(** [Simulator.__debug], reading the lines [lines] of the console:
    [input] writes the prompt and takes one line, and fails with
    [EOFError] when none is left. *)
Fixpoint debug_loop (py_int : string -> option Z)
    (lines : list string) (s : Simulator) : Result Simulator :=
  match lines with
  | [] => Raise EOFError
  | command :: rest =>
      let s1 := set_console_in rest (print prompt s) in
      match command with
      | EmptyString => Ok s1
      | _ =>
          match split_space command with
          | [] => Raise IndexError
          | cmd :: args =>
              s2 ← debug_command py_int cmd args s1; debug_loop py_int rest s2
          end
      end
  end.

Definition debug (py_int : string -> option Z) (s : Simulator) : Result Simulator :=
  debug_loop py_int (console_in s) s.

(** ** The module registry *)

Definition has_module_instance (name : string) (s : Simulator) : bool :=
  match dict_get name (sim_modules s) with
  | Some _ => true
  | None => false
  end.

Definition get_module_instance (name : string) (s : Simulator) : Result SimModule :=
  match dict_get name (sim_modules s) with
  | Some m => Ok m
  | None => Raise (KeyError name)
  end.

(** [Simulator.register] *)
Definition register (obj : PyObject) (override : bool) (s : Simulator) : Result Simulator :=
  match obj with
  | NotSimModule _ => Raise (TypeError "Expected SimModule object")
  | IsSimModule sim_module =>
      if has_module_instance (get_name sim_module) s then
        Raise (Exception ("Module " +:+ get_name sim_module +:+ " already exists"))
      else
        let s1 := set_sim_modules
                    (dict_set (get_name sim_module) sim_module (sim_modules s)) s in
        let k := KValue (value (get_type sim_module)) in
        let dq := default [] (module_type_map s1 !! k) in
        let dq' := if override then sim_module :: dq else dq ++ [sim_module] in
        Ok (set_module_type_map (<[k := dq']> (module_type_map s1)) s1)
  end.

(** The event bus: [Simulator.subscribe] *)
Definition subscribe (ty : EventType) (handler : HandlerId)
    (event_filter : option FilterId) (s : Simulator) : Simulator :=
  let table :=
    match event_listeners s !! ty with
    | Some _ => event_listeners s
    | None => <[ty := {| seq_kind := PyList; seq_items := [] |}]> (event_listeners s)
    end in
  let add ls := {| seq_kind := seq_kind ls;
                   seq_items := seq_items ls ++ [(event_filter, handler)] |} in
  set_event_listeners (alter add ty table) s.

(** [Simulator.register_alarm] *)
Definition register_alarm (al : Event) (s : Simulator) : Simulator :=
  set_event_queue (pq_push al (timestamp al, Priority.ALARM) (event_queue s)) s.

Definition get_current_time (s : Simulator) : option Z := current_time s.

Definition EVENT_QUEUE_THRESHOLD : Z := 100.

(** [Simulator.__populate_event_queue_from_trace] *)
Definition populate_event_queue_from_trace (s : Simulator) : Simulator :=
  let '(events, tr) :=
    get_events (Z.to_nat EVENT_QUEUE_THRESHOLD) (trace_reader s) in
  let q := foldl (fun q x => pq_push x (timestamp x, Priority.TRACE) q)
                 (event_queue s) events in
  set_event_queue q (set_trace_reader tr s).

(** The first lines of [Simulator.broadcast]: the event must be of now.
    The result is the event as the handlers see it. *)
Definition stamp (ev : Event) (s : Simulator) : Result Event :=
  if truthy (timestamp ev) then
    if bool_decide (timestamp ev ≠ current_time s) then
      Raise (Exception "Broadcasting event with invalid timestamp.")
    else Ok ev
  else Ok (set_timestamp (current_time s) ev).

(** [self.event_listeners[ty]] on the [defaultdict]: a missing key is
    stored with an empty deque. *)
Definition listeners_default (ty : EventType) (s : Simulator) : Simulator :=
  match event_listeners s !! ty with
  | Some _ => s
  | None =>
      set_event_listeners
        (<[ty := {| seq_kind := PyDeque; seq_items := [] |}]> (event_listeners s)) s
  end.

Definition listeners_of (ty : EventType) (s : Simulator) : list (option FilterId * HandlerId) :=
  match event_listeners s !! ty with
  | Some ls => seq_items ls
  | None => []
  end.

(** [cur_event.timestamp > trace_event.timestamp]: Python does not order
    [None]. *)
Definition py_gt (a b : option Z) : Result bool :=
  match a, b with
  | Some x, Some y => Ok (y <? x)
  | _, _ => Raise (TypeError "'>' not supported")
  end.

Section Engine.

(** Whether a member of the module-type enumeration compares equal to
    its value (an [IntEnum] or another mix-in) or not (a plain [Enum]). *)
Variable member_is_value : bool.

(** The builtin [int] on a string, and whether the trace reader has the
    next event at hand. *)
Variable py_int : string -> option Z.
Variable lookahead : TraceReader -> bool.

(** The callables the engine invokes. *)
Variable handler_sem : HandlerId -> Event -> Simulator -> Result Simulator.
Variable filter_sem : FilterId -> Event -> bool.
Variable fire_sem : Event -> Simulator -> Result (Event * Simulator).
Variable finish_sem : SimModule -> Simulator -> Result Simulator.
Variable show_event : Event -> string.

(** The key under which [module_type in self.module_type_map] looks. *)
Definition member_key (module_type : ModuleType) : PyKey :=
  if member_is_value then KValue (value module_type) else KMember module_type.

(** [Simulator.get_module_for_type].  When the membership test passes
    and no sequence is stored under the value, the [defaultdict] stores
    an empty deque and [[0]] fails. *)
Definition get_module_for_type (module_type : ModuleType) (s : Simulator)
    : Result (option SimModule) :=
  match module_type_map s !! member_key module_type with
  | Some _ =>
      match default [] (module_type_map s !! KValue (value module_type)) with
      | m :: _ => Ok (Some m)
      | [] => Raise IndexError
      end
  | None => Ok None
  end.

(** [not event_filter or event_filter(event)] *)
Definition passes (event_filter : option FilterId) (ev : Event) : bool :=
  match event_filter with
  | None => true
  | Some f => filter_sem f ev
  end.

(** The loop of [Simulator.broadcast] over the sequence stored under the
    event's type, which the handlers may extend through [subscribe]
    while it runs: position [i] is read from the sequence as it is
    then.  A [list] shows the new entries to the loop; a [deque] that
    changed length ends it with [RuntimeError].  [calls] collects the
    handlers invoked, in order; [fuel] bounds the number of entries
    visited. *)
Fixpoint fan_out (fuel : nat) (ev : Event) (i : nat) (s : Simulator)
    (calls : list HandlerId) : Result (Simulator * list HandlerId) :=
  match event_listeners s !! event_type ev with
  | None => Ok (s, calls)
  | Some ls =>
      match seq_items ls !! i with
      | None => Ok (s, calls)
      | Some (event_filter, handler) =>
          match fuel with
          | O => Diverge
          | S fuel' =>
              if passes event_filter ev then
                s' ← handler_sem handler ev s;
                match seq_kind ls with
                | PyDeque =>
                    if bool_decide (length (listeners_of (event_type ev) s')
                                    = length (seq_items ls))
                    then fan_out fuel' ev (S i) s' (calls ++ [handler])
                    else Raise (RuntimeError "deque mutated during iteration")
                | PyList => fan_out fuel' ev (S i) s' (calls ++ [handler])
                end
              else fan_out fuel' ev (S i) s calls
          end
      end
  end.

(** [Simulator.broadcast]: the simulator afterwards, the event as
    stamped, and the handlers invoked. *)
Definition broadcast (fuel : nat) (ev : Event) (s : Simulator)
    : Result (Simulator * Event * list HandlerId) :=
  ev' ← stamp ev s;
  '(s', calls) ← fan_out fuel ev' 0 (listeners_default (event_type ev') s) [];
  Ok (s', ev', calls).

(** [event.fire()] and [event.is_repeating()] exist on alarms only. *)
Definition fire (ev : Event) (s : Simulator) : Result (Event * Simulator) :=
  match alarm ev with
  | Some _ => fire_sem ev s
  | None => Raise AttributeError
  end.

Definition is_repeating (ev : Event) : Result bool :=
  match alarm ev with
  | Some a => Ok (repeating a)
  | None => Raise AttributeError
  end.

(** [Simulator.__execute_event]: the simulator afterwards and the
    handlers the bus invoked. *)
Definition execute_event (fuel : nat) (ev : Event) (s : Simulator)
    : Result (Simulator * list HandlerId) :=
  match event_type ev with
  | SIM_DEBUG => s' ← debug py_int s; Ok (s', [])
  | SIM_ALARM =>
      '(ev', s') ← fire ev s;
      again ← is_repeating ev';
      if again : bool then
        Ok (set_event_queue
              (pq_push ev' (timestamp ev', Priority.ALARM) (event_queue s')) s', [])
      else Ok (s', [])
  | DOMAIN _ =>
      '(s', _, calls) ← broadcast fuel ev s;
      Ok (s', calls)
  end.

(** The steps of one dispatch after [self.event_queue.pop()]. *)
Definition dispatch (fuel : nat) (cur_event : Event) (s : Simulator)
    : Result Simulator :=
  let s1 := set_current_time (timestamp cur_event) s in
  let s2 := if verbose s1 then print (show_event cur_event) s1 else s1 in
  s3 ← (if debug_mode s2 then
          let s' := set_debug_interval_cnt (debug_interval_cnt s2 + 1) s2 in
          if debug_interval_cnt s' =? debug_interval s' then
            s'' ← debug py_int s'; Ok (set_debug_interval_cnt 0 s'')
          else Ok s'
        else Ok s2);
  '(s4, _) ← execute_event fuel cur_event s3;
  Ok s4.

(** One pass through the body of the [while] loop of [Simulator.run]:
    the event dispatched in this pass, if any, and the simulator at the
    end of the pass. *)
Definition run_iter (fuel : nat) (s : Simulator) : option Event * Result Simulator :=
  if (pq_size (event_queue s) <? EVENT_QUEUE_THRESHOLD)
     && negb (end_of_trace (trace_reader s))
  then (None, Ok (populate_event_queue_from_trace s))
  else
    match pq_peek (event_queue s) with
    | None => (None, Raise IndexError)
    | Some cur_event =>
        let go :=
          (Some cur_event,
           dispatch fuel cur_event (set_event_queue (pq_pop (event_queue s)) s)) in
        match peek_event lookahead (trace_reader s) with
        | Some trace_event =>
            match py_gt (timestamp cur_event) (timestamp trace_event) with
            | Ok true => (None, Ok (populate_event_queue_from_trace s))
            | Ok false => go
            | Raise e => (None, Raise e)
            | Diverge => (None, Diverge)
            end
        | None => go
        end
    end.

(** The [while] loop of [Simulator.run]: the events dispatched, in
    order, and how the loop ended. *)
Fixpoint run_loop (fuel : nat) (s : Simulator) : list Event * Result Simulator :=
  match fuel with
  | O => ([], Diverge)
  | S fuel' =>
      if end_of_trace (trace_reader s) && pq_empty (event_queue s)
      then ([], Ok s)
      else
        match run_iter fuel' s with
        | (d, Ok s') =>
            let '(ds, r) := run_loop fuel' s' in
            (option_list d ++ ds, r)
        | (d, r) => (option_list d, r)
        end
  end.

(** [Simulator.__finish] *)
Fixpoint finish_all (ms : list SimModule) (s : Simulator) : Result Simulator :=
  match ms with
  | [] => Ok s
  | sim_module :: ms' => s' ← finish_sem sim_module s; finish_all ms' s'
  end.

Definition finish (s : Simulator) : Result Simulator :=
  finish_all (map snd (sim_modules s)) s.

(** [Simulator.run], on the events [trace] of the trace file. *)
Definition run (fuel : nat) (trace : list Event) (s : Simulator)
    : list Event * Result Simulator :=
  let s0 := set_trace_reader trace s in
  match (if debug_mode s0 then debug py_int (set_debug_interval_cnt 0 s0) else Ok s0) with
  | Ok s1 =>
      let '(ds, r) := run_loop fuel s1 in
      (ds, r ≫= finish)
  | Raise e => ([], Raise e)
  | Diverge => ([], Diverge)
  end.

(** A handler is quiet for an event type when it returns normally and
    leaves the subscriptions of that type as they are. *)
Definition handler_quiet (ty : EventType) (h : HandlerId) : Prop :=
  forall ev s, exists s',
    handler_sem h ev s = Ok s' /\
    event_listeners s' !! ty = event_listeners s !! ty.

(** The handlers that [broadcast] is to invoke for [ev] among the
    subscriptions [l], in the order of [l]. *)
Definition matching (ev : Event) (l : list (option FilterId * HandlerId))
    : list HandlerId :=
  map snd (List.filter (fun p => passes (fst p) ev) l).

End Engine.

(** ** Notions used by the statements *)

(** A queue is well formed when its keys ascend. *)
Definition pq_sorted (q : PriorityQueue) : Prop :=
  StronglySorted (fun a b => key_leb (fst a) (fst b) = true) q.

(** Registering a list of modules, each with its [override] flag. *)
Fixpoint register_all (regs : list (SimModule * bool)) (s : Simulator) : Result Simulator :=
  match regs with
  | [] => Ok s
  | (m, override) :: regs' =>
      s' ← register (IsSimModule m) override s; register_all regs' s'
  end.

Definition of_type (t : ModuleType) (r : SimModule * bool) : bool :=
  bool_decide (get_type (fst r) = t).

(** The sequence of a module type after the registrations [regs]:
    an overriding module goes to the front, any other to the back. *)
Definition seq_step (dq : list SimModule) (r : SimModule * bool) : list SimModule :=
  if snd r then fst r :: dq else dq ++ [fst r].

Definition type_sequence (regs : list (SimModule * bool)) (t : ModuleType) : list SimModule :=
  foldl seq_step [] (List.filter (of_type t) regs).

(** The provider of a module type as the documentation words it: the
    most recent overriding registration if there is one, otherwise the
    earliest plain registration. *)
Definition active_provider (regs : list (SimModule * bool)) (t : ModuleType) : option SimModule :=
  match last (List.filter (fun r : SimModule * bool => of_type t r && snd r) regs) with
  | Some r => Some (fst r)
  | None => fst <$> head (List.filter (of_type t) regs)
  end.

(** The commands that the debug controller answers with a usage message:
    [Malformed py_int cmd args usage] for the command word, its arguments
    and the message; an argument is no number when [int] raises
    [ValueError] on it. *)
Inductive Malformed (py_int : string -> option Z)
    : string -> list string -> string -> Prop :=
| interval_arity (args : list string) :
    length args ≠ 1%nat -> Malformed py_int "interval" args usage_interval
| interval_not_numeric (a : string) :
    py_int a = None -> Malformed py_int "interval" [a] usage_interval
| verbose_arity (args : list string) :
    (1 < length args)%nat -> Malformed py_int "verbose" args usage_verbose_arity
| verbose_argument (a : string) :
    a ≠ "on" -> a ≠ "off" -> Malformed py_int "verbose" [a] usage_verbose_arg.

(** The queue entry of a trace event, and that of an alarm. *)
Definition trace_entry (x : Event) : Key * Event :=
  ((timestamp x, Priority.TRACE), x).

Definition alarm_entry (al : Event) : Key * Event :=
  ((timestamp al, Priority.ALARM), al).

(** *** The order of fan-out *)

(** A filter lets an event through: there is none, or it returns true
    for the event. *)
Definition accepted (filter_sem : FilterId -> Event -> bool) (ev : Event)
    (event_filter : option FilterId) : Prop :=
  event_filter = None \/
  exists f, event_filter = Some f /\ filter_sem f ev = true.

(** The handlers due for an event among the pairs [l]: those whose
    filter lets the event through, in the order of [l]. *)
Fixpoint due_handlers (filter_sem : FilterId -> Event -> bool) (ev : Event)
    (l : list (option FilterId * HandlerId)) : list HandlerId :=
  match l with
  | [] => []
  | (None, h) :: l' => h :: due_handlers filter_sem ev l'
  | (Some f, h) :: l' =>
      if filter_sem f ev then h :: due_handlers filter_sem ev l'
      else due_handlers filter_sem ev l'
  end.

(** Invoking the handlers [hs] on an event one after the other, each on
    the simulator as the one before left it; the first that does not
    return ends the sequence. *)
Fixpoint run_handlers
    (handler_sem : HandlerId -> Event -> Simulator -> Result Simulator)
    (hs : list HandlerId) (ev : Event) (s : Simulator) : Result Simulator :=
  match hs with
  | [] => Ok s
  | h :: hs' => s' ← handler_sem h ev s; run_handlers handler_sem hs' ev s'
  end.

(** A handler that returns leaves what is subscribed for the type [ty]
    as it is. *)
Definition keeps_listeners
    (handler_sem : HandlerId -> Event -> Simulator -> Result Simulator)
    (ty : EventType) (h : HandlerId) : Prop :=
  forall ev s s',
    handler_sem h ev s = Ok s' ->
    event_listeners s' !! ty = event_listeners s !! ty.

(** *** The order of dispatch *)

(** A time is not before the clock; an unset clock bounds nothing. *)
Definition not_before (clock : option Z) (t : Z) : Prop :=
  match clock with
  | Some now => now <= t
  | None => True
  end.

(** An event is due: its timestamp is set and not before the clock. *)
Definition event_due (clock : option Z) (x : Event) : Prop :=
  exists t, timestamp x = Some t /\ not_before clock t.

(** A queue entry is due: it is keyed by the timestamp of its event,
    which is due. *)
Definition entry_due (clock : option Z) (e : Key * Event) : Prop :=
  fst (fst e) = timestamp (snd e) /\ event_due clock (snd e).

(** The trace reader yields its events in non-decreasing order of
    timestamp. *)
Definition trace_ordered (tr : TraceReader) : Prop :=
  StronglySorted
    (fun a b => exists x y, timestamp a = Some x /\ timestamp b = Some y /\ x <= y) tr.

(** The reader has its next event at hand whenever the trace is not
    exhausted, so that [peek_event] is none at the end of the trace
    only. *)
Definition looks_ahead (lookahead : TraceReader -> bool) : Prop :=
  forall tr, end_of_trace tr = false -> lookahead tr = true.

(** What is scheduled is due: the queue is sorted and holds due entries,
    the trace is ordered and holds due events. *)
Definition schedule_ok (clock : option Z) (s : Simulator) : Prop :=
  pq_sorted (event_queue s) /\
  Forall (entry_due clock) (event_queue s) /\
  trace_ordered (trace_reader s) /\
  Forall (event_due clock) (trace_reader s).

(** [s'] comes from [s] by registering alarms that are due at [now],
    leaving the trace reader and the clock alone. *)
Definition registers_from (now : Z) (s s' : Simulator) : Prop :=
  exists alarms,
    Forall (event_due (Some now)) alarms /\
    event_queue s'
    = foldl (fun q al => pq_push al (timestamp al, Priority.ALARM) q)
            (event_queue s) alarms /\
    trace_reader s' = trace_reader s /\
    current_time s' = current_time s.

(** The callbacks schedule for now or later. *)
Definition handlers_schedule_ahead
    (handler_sem : HandlerId -> Event -> Simulator -> Result Simulator) : Prop :=
  forall h ev s s' now,
    handler_sem h ev s = Ok s' -> current_time s = Some now ->
    registers_from now s s'.

Definition fire_schedules_ahead
    (fire_sem : Event -> Simulator -> Result (Event * Simulator)) : Prop :=
  forall ev s ev' s' now,
    fire_sem ev s = Ok (ev', s') -> current_time s = Some now ->
    registers_from now s s' /\
    (forall a, alarm ev' = Some a -> repeating a = true ->
               event_due (Some now) ev').

(** The timestamps of the events dispatched are set and never decrease,
    starting from the clock. *)
Definition dispatch_ordered (clock : option Z) (log : list Event) : Prop :=
  exists times : list Z,
    map timestamp log = map Some times /\
    StronglySorted Z.le times /\
    Forall (not_before clock) times.

(** ** Sample collaborators *)

Module Examples.

Definition trace_event (t : Z) : Event :=
  {| timestamp := Some t; event_type := DOMAIN 0; payload := 0; alarm := None |}.

Definition alarm_event (t p : Z) (again : bool) : Event :=
  {| timestamp := Some t; event_type := SIM_ALARM; payload := 0;
     alarm := Some {| period := p; repeating := again; fire_action := 0 |} |}.

Definition unstamped_event : Event :=
  {| timestamp := None; event_type := DOMAIN 0; payload := 0; alarm := None |}.

Definition power_model : SimModule :=
  {| get_name := "power"; get_type := {| value := 1 |}; mod_ident := 0 |}.

Definition radio_model : SimModule :=
  {| get_name := "radio"; get_type := {| value := 1 |}; mod_ident := 1 |}.

(** Handlers that do nothing, filters that accept everything. *)
Definition idle_handlers (h : HandlerId) (ev : Event) (s : Simulator) : Result Simulator :=
  Ok s.

Definition open_filters (f : FilterId) (ev : Event) : bool := true.

(** Filter [0] accepts everything, any other filter nothing. *)
Definition only_filter_zero (f : FilterId) (ev : Event) : bool :=
  match f with
  | O => true
  | S _ => false
  end.

(** A handler that registers an alarm for the time 3, whatever the
    time is. *)
Definition past_alarm_handlers (h : HandlerId) (ev : Event) (s : Simulator)
    : Result Simulator :=
  Ok (register_alarm (alarm_event 3 0 false) s).

(** A handler that registers an alarm ten time units from now. *)
Definition future_alarm_handlers (h : HandlerId) (ev : Event) (s : Simulator)
    : Result Simulator :=
  match current_time s with
  | Some now => Ok (register_alarm (alarm_event (now + 10) 0 false) s)
  | None => Ok s
  end.

(** A fire action that advances the alarm by its period. *)
Definition advancing_fire (ev : Event) (s : Simulator) : Result (Event * Simulator) :=
  match timestamp ev, alarm ev with
  | Some t, Some a => Ok (set_timestamp (Some (t + period a)) ev, s)
  | _, _ => Ok (ev, s)
  end.

(** A fire action that re-arms the alarm one period (at least zero)
    after the current time. *)
Definition rearming_fire (ev : Event) (s : Simulator) : Result (Event * Simulator) :=
  match current_time s, alarm ev with
  | Some now, Some a => Ok (set_timestamp (Some (now + Z.max 0 (period a))) ev, s)
  | _, _ => Ok (ev, s)
  end.

(** A reader that always has the next event at hand, and one that never
    has. *)
Definition full_lookahead (tr : TraceReader) : bool := true.

Definition no_lookahead (tr : TraceReader) : bool := false.

Definition no_finish (m : SimModule) (s : Simulator) : Result Simulator := Ok s.

Definition show_nothing (ev : Event) : string := EmptyString.

Definition at_time (t : Z) : Simulator := set_current_time (Some t) (init []).

(** A simulator with one subscription and one alarm, and a trace. *)
Definition busy : Simulator :=
  set_trace_reader [trace_event 1; trace_event 2]
    (subscribe (DOMAIN 0) 0%nat None
       (register_alarm (alarm_event 2 5 false) (init []))).

Definition one_event : Simulator :=
  set_trace_reader [trace_event 10]
    (subscribe (DOMAIN 0) 0%nat None (init [])).

(** Every handler writes its number to the console. *)
Definition noting_handlers (h : HandlerId) (ev : Event) (s : Simulator)
    : Result Simulator :=
  Ok (print (String (ascii_of_nat (48 + h)) EmptyString) s).

(** Three subscriptions for the type of the trace events at time 5:
    handler [1] behind filter [0], handler [2] behind filter [1], handler
    [3] behind no filter. *)
Definition three_subscribed : Simulator :=
  subscribe (DOMAIN 0) 3%nat None
    (subscribe (DOMAIN 0) 2%nat (Some 1%nat)
       (subscribe (DOMAIN 0) 1%nat (Some 0%nat) (at_time 5))).

(** Handler [1] raises, the others do nothing. *)
Definition failing_handlers (h : HandlerId) (ev : Event) (s : Simulator)
    : Result Simulator :=
  match h with
  | S O => Raise (Exception "handler failed")
  | _ => Ok s
  end.

(** Handler [0] subscribes handler [1] to the type of the event, the
    others do nothing. *)
Definition subscribing_handlers (h : HandlerId) (ev : Event) (s : Simulator)
    : Result Simulator :=
  match h with
  | O => Ok (subscribe (event_type ev) 1%nat None s)
  | _ => Ok s
  end.

(** A fire action that leaves the alarm not repeating. *)
Definition disarming_fire (ev : Event) (s : Simulator) : Result (Event * Simulator) :=
  Ok ({| timestamp := timestamp ev; event_type := event_type ev;
         payload := payload ev;
         alarm := Some {| period := 0; repeating := false; fire_action := 0 |} |},
      s).

(** A simulator in debug mode whose console holds a quit command. *)
Definition debugging : Simulator :=
  {| sim_modules := []; module_type_map := ∅; event_queue := [];
     current_time := None; event_listeners := ∅; trace_reader := [];
     verbose := false; debug_mode := true; debug_interval := 1;
     debug_interval_cnt := 0; console_in := ["q"]; console_out := [] |}.

(** A simulator in debug mode with the debug interval [k] and the
    console input [input]. *)
Definition stepping (k : Z) (input : list string) : Simulator :=
  {| sim_modules := []; module_type_map := ∅; event_queue := [];
     current_time := None; event_listeners := ∅; trace_reader := [];
     verbose := false; debug_mode := true; debug_interval := k;
     debug_interval_cnt := 0; console_in := input; console_out := [] |}.

(** Two events pulled from the trace, for the times 7 and 9, then an
    alarm registered for the time 7; one event, for the time 7, is left
    in the trace. *)
Definition alarm_after_refill : Simulator :=
  register_alarm (alarm_event 7 0 false)
    (set_trace_reader [trace_event 7]
       (populate_event_queue_from_trace
          (set_trace_reader [trace_event 7; trace_event 9] (init [])))).

(** A hundred alarms registered for the time 50, and a trace of one
    event, for the time 20. *)
Definition crowded : Simulator :=
  set_trace_reader [trace_event 20]
    (Nat.iter 100 (register_alarm (alarm_event 50 0 false)) (init [])).

(** A simulator at time 1 whose queue holds one alarm, for time 4. *)
Definition alarm_due : Simulator :=
  set_event_queue [((Some 4, Priority.ALARM), alarm_event 4 3 true)] (at_time 1).

(** The simulator after registering the power model, and after
    registering the radio model over it. *)
Definition with_power : Simulator :=
  match register (IsSimModule power_model) false (init []) with
  | Ok s => s
  | _ => init []
  end.

Definition with_radio : Simulator :=
  match register (IsSimModule radio_model) true with_power with
  | Ok s => s
  | _ => init []
  end.

End Examples.

(** *** The registry after a list of registrations *)

(** The entry of the name map that a registration makes. *)
Definition name_entry (r : SimModule * bool) : string * SimModule :=
  (get_name (fst r), fst r).

Definition reg_name (r : SimModule * bool) : string := get_name (fst r).

(** *** What the debug controller leaves alone *)

(** [s'] differs from [s] at most in the echo flag, the debug interval
    and the console. *)
Definition debug_frame_ok (s s' : Simulator) : Prop :=
  sim_modules s' = sim_modules s /\
  module_type_map s' = module_type_map s /\
  event_queue s' = event_queue s /\
  current_time s' = current_time s /\
  event_listeners s' = event_listeners s /\
  trace_reader s' = trace_reader s /\
  debug_mode s' = debug_mode s /\
  debug_interval_cnt s' = debug_interval_cnt s.

(** *** Callbacks that leave the engine alone *)

(** [s'] has the queue, the trace reader, the clock, the debug mode and
    the subscriptions of [s]. *)
Definition engine_untouched (s s' : Simulator) : Prop :=
  event_queue s' = event_queue s /\
  trace_reader s' = trace_reader s /\
  current_time s' = current_time s /\
  debug_mode s' = debug_mode s /\
  forall ty, listeners_of ty s' = listeners_of ty s.

(** Every handler returns normally and leaves the engine alone. *)
Definition handlers_passive
    (handler_sem : HandlerId -> Event -> Simulator -> Result Simulator) : Prop :=
  forall h ev s, exists s', handler_sem h ev s = Ok s' /\ engine_untouched s s'.

(** Every fire action returns normally, leaves the engine alone and
    leaves the alarm not repeating. *)
Definition fire_one_shot
    (fire_sem : Event -> Simulator -> Result (Event * Simulator)) : Prop :=
  forall ev s, exists ev' s' a,
    fire_sem ev s = Ok (ev', s') /\ alarm ev' = Some a /\
    repeating a = false /\ engine_untouched s s'.

(** An event that [__execute_event] can execute without the console: a
    domain event, or an alarm that has its alarm fields. *)
Definition dispatchable (ev : Event) : Prop :=
  match event_type ev with
  | SIM_DEBUG => False
  | SIM_ALARM => is_Some (alarm ev)
  | DOMAIN _ => True
  end.

(** The events still to be dispatched: those queued and those left in
    the trace. *)
Definition pending (s : Simulator) : list Event :=
  map snd (event_queue s) ++ trace_reader s.

Definition loop_measure (s : Simulator) : nat :=
  (2 * length (trace_reader s) + length (event_queue s))%nat.

(** In the log of a run from [s], every alarm queued in [s] comes before
    every trace event of the same timestamp that is queued in [s] or
    still in the trace: the log has the alarm at a position before one
    of the trace event. *)
Definition alarm_first (s : Simulator) (log : list Event) : Prop :=
  forall al x,
    alarm_entry al ∈ event_queue s ->
    trace_entry x ∈ event_queue s \/ x ∈ trace_reader s ->
    timestamp al = timestamp x ->
    exists i j, log !! i = Some al /\ log !! j = Some x /\ (i < j)%nat.

(** [s'] has the debug interval, the debug counter and the console
    input of [s]. *)
Definition console_untouched (s s' : Simulator) : Prop :=
  debug_interval s' = debug_interval s /\
  debug_interval_cnt s' = debug_interval_cnt s /\
  console_in s' = console_in s.

Definition handlers_off_console
    (handler_sem : HandlerId -> Event -> Simulator -> Result Simulator) : Prop :=
  forall h ev s s', handler_sem h ev s = Ok s' -> console_untouched s s'.

Definition fire_off_console
    (fire_sem : Event -> Simulator -> Result (Event * Simulator)) : Prop :=
  forall ev s ev' s', fire_sem ev s = Ok (ev', s') -> console_untouched s s'.

(** * Properties *)

(** ** Module registry *)

Lemma dict_get_set_eq {V : Type} (name : string) (v : V) (d : list (string * V)) :
  dict_get name (dict_set name v d) = Some v.
Proof.
  induction d as [|[k w] d IH]; simpl.
  - by rewrite String.eqb_refl.
  - destruct (String.eqb k name) eqn:E; simpl; by rewrite E.
Qed.

Lemma dict_get_set_ne {V : Type} (name other : string) (v : V) (d : list (string * V)) :
  other ≠ name -> dict_get other (dict_set name v d) = dict_get other d.
Proof.
  intros Hne. induction d as [|[k w] d IH]; simpl.
  - destruct (String.eqb name other) eqn:E; [|done].
    apply String.eqb_eq in E. congruence.
  - destruct (String.eqb k name) eqn:E; simpl.
    + apply String.eqb_eq in E. subst k.
      destruct (String.eqb name other) eqn:E'; [|done].
      apply String.eqb_eq in E'. congruence.
    + by rewrite IH.
Qed.

Lemma dict_set_absent {V : Type} (name : string) (v : V) (d : list (string * V)) :
  dict_get name d = None -> dict_set name v d = d ++ [(name, v)].
Proof.
  induction d as [|[k w] d IH]; simpl; [done|].
  destruct (String.eqb k name); [done|]. intros H. by rewrite IH.
Qed.

(** C7.  [register] rejects an object that is not a simulation module
    with a type error, rejects a module whose name is already registered
    with the duplicate-module exception, and otherwise succeeds: the
    module is entered in the name map (as its last entry, the other names
    untouched) and put at the back of the sequence of its type, or at the
    front when [override] is set (the other sequences untouched). *)
Theorem register_outcomes (obj : PyObject) (override : bool) (s : Simulator) :
  (forall d, obj = NotSimModule d ->
     register obj override s = Raise (TypeError "Expected SimModule object")) /\
  (forall m, obj = IsSimModule m ->
     has_module_instance (get_name m) s = true ->
     register obj override s
     = Raise (Exception ("Module " +:+ get_name m +:+ " already exists"))) /\
  (forall m, obj = IsSimModule m ->
     has_module_instance (get_name m) s = false ->
     exists s',
       register obj override s = Ok s' /\
       sim_modules s' = sim_modules s ++ [(get_name m, m)] /\
       dict_get (get_name m) (sim_modules s') = Some m /\
       (forall other : string, other ≠ get_name m ->
          dict_get other (sim_modules s') = dict_get other (sim_modules s)) /\
       (let old := default [] (module_type_map s !! KValue (value (get_type m))) in
        module_type_map s' !! KValue (value (get_type m))
        = Some (if override then m :: old else old ++ [m])) /\
       (forall k : PyKey, k ≠ KValue (value (get_type m)) ->
          module_type_map s' !! k = module_type_map s !! k) /\
       event_queue s' = event_queue s /\
       event_listeners s' = event_listeners s /\
       current_time s' = current_time s).
Proof.
  split; [|split].
  - intros d ->. reflexivity.
  - intros m -> Hdup. unfold register. by rewrite Hdup.
  - intros m -> Hnew. unfold register. rewrite Hnew.
    eexists; split; [reflexivity|]. simpl.
    assert (Hnone : dict_get (get_name m) (sim_modules s) = None).
    { unfold has_module_instance in Hnew.
      by destruct (dict_get (get_name m) (sim_modules s)). }
    repeat split.
    + by apply dict_set_absent.
    + apply dict_get_set_eq.
    + intros other Hne. by apply dict_get_set_ne.
    + by rewrite lookup_insert_eq.
    + intros k Hk. by rewrite lookup_insert_ne.
Qed.

Lemma register_outcomes_witness :
  register (NotSimModule "a dict") false (init [])
    = Raise (TypeError "Expected SimModule object") /\
  (exists s1 s2,
     register (IsSimModule Examples.power_model) false (init []) = Ok s1 /\
     register (IsSimModule Examples.power_model) true s1
       = Raise (Exception "Module power already exists") /\
     register (IsSimModule Examples.radio_model) true s1 = Ok s2 /\
     module_type_map s2 !! KValue 1
       = Some [Examples.radio_model; Examples.power_model]).
Proof.
  split.
  - exact (proj1 (register_outcomes (NotSimModule "a dict") false (init []))
             "a dict" eq_refl).
  - destruct (proj2 (proj2 (register_outcomes
               (IsSimModule Examples.power_model) false (init [])))
               Examples.power_model eq_refl eq_refl)
      as (s1 & H1 & Hmods1 & Hget1 & _ & Hseq1 & _).
    assert (Hdup : has_module_instance (get_name Examples.power_model) s1 = true).
    { unfold has_module_instance. by rewrite Hget1. }
    assert (Hnew : has_module_instance (get_name Examples.radio_model) s1 = false).
    { unfold has_module_instance. by rewrite Hmods1. }
    destruct (proj2 (proj2 (register_outcomes
               (IsSimModule Examples.radio_model) true s1))
               Examples.radio_model eq_refl Hnew)
      as (s2 & H2 & _ & _ & _ & Hseq2 & _).
    exists s1, s2. split; [exact H1|]. split.
    + exact (proj1 (proj2 (register_outcomes
               (IsSimModule Examples.power_model) true s1))
               Examples.power_model eq_refl Hdup).
    + split; [exact H2|]. simpl in Hseq1, Hseq2. rewrite Hseq2.
      simpl. by rewrite Hseq1.
Defined.

Lemma seq_step_nonempty (dq : list SimModule) (r : SimModule * bool) :
  seq_step dq r ≠ [].
Proof. unfold seq_step. destruct (snd r), dq; simpl; congruence. Qed.

Lemma foldl_seq_step_nonempty (l : list (SimModule * bool)) (dq : list SimModule) :
  dq ≠ [] \/ l ≠ [] -> foldl seq_step dq l ≠ [].
Proof.
  revert dq. induction l as [|r l IH]; intros dq [H|H]; simpl; try done.
  - apply IH. left. apply seq_step_nonempty.
  - apply IH. left. apply seq_step_nonempty.
Qed.

Lemma value_inj (t1 t2 : ModuleType) : value t1 = value t2 -> t1 = t2.
Proof. destruct t1, t2; simpl; congruence. Qed.

Lemma register_type_map (m : SimModule) (override : bool) (s s' : Simulator) (t : ModuleType) :
  register (IsSimModule m) override s = Ok s' ->
  module_type_map s' !! KValue (value t)
  = if of_type t (m, override)
    then Some (seq_step (default [] (module_type_map s !! KValue (value t))) (m, override))
    else module_type_map s !! KValue (value t).
Proof.
  unfold register. destruct (has_module_instance _ _); [done|].
  intros [= <-]. simpl. unfold of_type, seq_step. simpl.
  case_bool_decide as Ht.
  - subst t. by rewrite lookup_insert_eq.
  - rewrite lookup_insert_ne; [done|]. intros [= Hv]. by apply value_inj in Hv.
Qed.

Lemma register_member_keys (obj : PyObject) (override : bool) (s s' : Simulator) :
  register obj override s = Ok s' ->
  (forall t, module_type_map s !! KMember t = None) ->
  forall t, module_type_map s' !! KMember t = None.
Proof.
  destruct obj as [m|d]; [|done]. unfold register.
  destruct (has_module_instance _ _); [done|].
  intros [= <-] Hnone t. simpl. by rewrite lookup_insert_ne.
Qed.

Lemma register_all_cons (m : SimModule) (o : bool) (regs : list (SimModule * bool))
    (s s1 : Simulator) :
  register (IsSimModule m) o s = Ok s1 ->
  register_all ((m, o) :: regs) s = register_all regs s1.
Proof. intros E. cbn [register_all]. by rewrite E. Qed.

Lemma register_all_cons_ok (m : SimModule) (o : bool) (regs : list (SimModule * bool))
    (s s' : Simulator) :
  register_all ((m, o) :: regs) s = Ok s' ->
  exists s1, register (IsSimModule m) o s = Ok s1 /\ register_all regs s1 = Ok s'.
Proof.
  cbn [register_all].
  destruct (register (IsSimModule m) o s) as [s1| |]; try done.
  intros H. by exists s1.
Qed.

Lemma register_all_member_keys (regs : list (SimModule * bool)) (s s' : Simulator) :
  register_all regs s = Ok s' ->
  (forall t, module_type_map s !! KMember t = None) ->
  forall t, module_type_map s' !! KMember t = None.
Proof.
  revert s. induction regs as [|[m o] regs IH]; intros s.
  - by intros [= <-].
  - intros (s1 & E & H)%register_all_cons_ok Hnone.
    eapply IH; [exact H|].
    eapply register_member_keys; eauto.
Qed.

Lemma register_all_type_map (regs : list (SimModule * bool)) (s s' : Simulator) (t : ModuleType) :
  register_all regs s = Ok s' ->
  module_type_map s' !! KValue (value t)
  = match List.filter (of_type t) regs with
    | [] => module_type_map s !! KValue (value t)
    | l => Some (foldl seq_step (default [] (module_type_map s !! KValue (value t))) l)
    end.
Proof.
  revert s. induction regs as [|[m o] regs IH]; intros s.
  - by intros [= <-].
  - intros (s1 & E & H)%register_all_cons_ok.
    rewrite (IH _ H), (register_type_map _ _ _ _ t E).
    cbn [List.filter].
    destruct (of_type t (m, o)); simpl; [|done].
    by destruct (List.filter (of_type t) regs).
Qed.

Lemma filter_override (t : ModuleType) (regs : list (SimModule * bool)) :
  List.filter (fun r : SimModule * bool => of_type t r && snd r) regs
  = List.filter snd (List.filter (of_type t) regs).
Proof.
  induction regs as [|r regs IH]; simpl; [done|].
  destruct (of_type t r); simpl; [|done].
  destruct (snd r); simpl; by rewrite IH.
Qed.

Lemma head_foldl_seq_step (l : list (SimModule * bool)) :
  head (foldl seq_step [] l)
  = match last (List.filter snd l) with
    | Some r => Some (fst r)
    | None => fst <$> head l
    end.
Proof.
  induction l as [|r l IH] using rev_ind; [done|].
  rewrite foldl_app, List.filter_app. simpl. unfold seq_step at 1.
  destruct (snd r) eqn:Hr; simpl.
  - by rewrite last_snoc.
  - rewrite app_nil_r.
    destruct l as [|r0 l]; [done|].
    assert (Hne : foldl seq_step [] (r0 :: l) ≠ []).
    { apply foldl_seq_step_nonempty. by right. }
    destruct (foldl seq_step [] (r0 :: l)) as [|m dq] eqn:E; [done|].
    simpl in IH |- *. exact IH.
Qed.

(** With an enumeration whose members equal their values, the lookup
    finds the first module of the type's sequence, which is the most
    recent overriding registration or else the earliest plain one, and
    [None] when no module of the type is registered. *)
Lemma get_module_for_type_mixin (regs : list (SimModule * bool)) (input : list string)
    (s : Simulator) (t : ModuleType) :
  register_all regs (init input) = Ok s ->
  get_module_for_type true t s = Ok (head (type_sequence regs t)) /\
  head (type_sequence regs t) = active_provider regs t.
Proof.
  intros H. split.
  - unfold get_module_for_type, member_key, type_sequence.
    rewrite (register_all_type_map _ _ _ t H).
    cbn [init module_type_map]. rewrite lookup_empty.
    destruct (List.filter (of_type t) regs) as [|r l] eqn:E; [done|].
    cbn [default from_option].
    assert (Hne : foldl seq_step [] (r :: l) ≠ []).
    { apply foldl_seq_step_nonempty. by right. }
    by destruct (foldl seq_step [] (r :: l)).
  - unfold type_sequence, active_provider.
    rewrite filter_override. apply head_foldl_seq_step.
Qed.

(** With a plain enumeration no member is a key of [module_type_map], so
    the lookup answers [None] whatever has been registered. *)
Lemma get_module_for_type_plain (regs : list (SimModule * bool)) (input : list string)
    (s : Simulator) (t : ModuleType) :
  register_all regs (init input) = Ok s ->
  get_module_for_type false t s = Ok None.
Proof.
  intros H. unfold get_module_for_type, member_key.
  by rewrite (register_all_member_keys _ _ _ H (fun _ => eq_refl)).
Qed.

(** C3.  The code at a registry that holds one module of type [t], for a
    plain enumeration of module types: the module heads the sequence of
    [t], and [get_module_for_type t] answers [None]. *)
Theorem get_module_for_type_misses_registered (m : SimModule) (override : bool)
    (input : list string) :
  exists s,
    register (IsSimModule m) override (init input) = Ok s /\
    module_type_map s !! KValue (value (get_type m)) = Some [m] /\
    get_module_for_type false (get_type m) s = Ok None.
Proof.
  eexists. split; [reflexivity|]. simpl. split.
  - rewrite lookup_insert_eq. by destruct override.
  - unfold get_module_for_type, member_key. simpl.
    by rewrite lookup_insert_ne.
Qed.

(** ** Event bus *)

Lemma subscribe_listeners (ty : EventType) (h : HandlerId) (f : option FilterId)
    (s : Simulator) :
  listeners_of ty (subscribe ty h f s) = listeners_of ty s ++ [(f, h)].
Proof.
  unfold listeners_of, subscribe. cbn [event_listeners set_event_listeners].
  destruct (event_listeners s !! ty) as [ls|] eqn:E.
  - by rewrite lookup_alter_eq, E.
  - by rewrite lookup_alter_eq, lookup_insert_eq.
Qed.

Lemma subscribe_other (ty ty' : EventType) (h : HandlerId) (f : option FilterId)
    (s : Simulator) :
  ty ≠ ty' ->
  event_listeners (subscribe ty h f s) !! ty' = event_listeners s !! ty'.
Proof.
  intros Hne. unfold subscribe. cbn [event_listeners set_event_listeners].
  rewrite lookup_alter_ne by done.
  destruct (event_listeners s !! ty); [done|]. by rewrite lookup_insert_ne.
Qed.

Lemma stamp_event_type (ev ev' : Event) (s : Simulator) :
  stamp ev s = Ok ev' -> event_type ev' = event_type ev.
Proof.
  unfold stamp. destruct (truthy (timestamp ev)).
  - case_bool_decide; [done|]. by intros [= <-].
  - by intros [= <-].
Qed.

Lemma stamp_unset (ev : Event) (s : Simulator) :
  timestamp ev = None -> stamp ev s = Ok (set_timestamp (current_time s) ev).
Proof. intros H. unfold stamp. by rewrite H. Qed.

Lemma stamp_other_time (ev : Event) (s : Simulator) (t : Z) :
  timestamp ev = Some t -> t ≠ 0 -> current_time s ≠ Some t ->
  stamp ev s = Raise (Exception "Broadcasting event with invalid timestamp.").
Proof.
  intros H Ht Hne. unfold stamp. rewrite H. simpl.
  destruct (Z.eqb_spec t 0); [done|]. simpl.
  case_bool_decide; [done|]. congruence.
Qed.

Lemma stamp_now (ev : Event) (s : Simulator) (t : Z) :
  timestamp ev = Some t -> current_time s = Some t ->
  exists ev', stamp ev s = Ok ev' /\ timestamp ev' = Some t /\
    event_type ev' = event_type ev /\ payload ev' = payload ev /\
    alarm ev' = alarm ev.
Proof.
  intros H Hs. unfold stamp. rewrite H, Hs. simpl.
  destruct (negb (t =? 0)).
  - case_bool_decide; [done|]. by exists ev.
  - by eexists.
Qed.

(** A preset timestamp of zero counts as unset. *)
Lemma stamp_zero (ev : Event) (s : Simulator) :
  timestamp ev = Some 0 -> stamp ev s = Ok (set_timestamp (current_time s) ev).
Proof. intros H. unfold stamp. by rewrite H. Qed.

Lemma listeners_default_lookup (ty : EventType) (s : Simulator) :
  exists ls, event_listeners (listeners_default ty s) !! ty = Some ls /\
    seq_items ls = listeners_of ty s.
Proof.
  unfold listeners_default, listeners_of.
  destruct (event_listeners s !! ty) as [ls|] eqn:E.
  - by exists ls.
  - eexists. cbn [event_listeners set_event_listeners].
    by rewrite lookup_insert_eq.
Qed.

Lemma listeners_default_other (ty ty' : EventType) (s : Simulator) :
  ty' ≠ ty ->
  event_listeners (listeners_default ty s) !! ty' = event_listeners s !! ty'.
Proof.
  intros Hne. unfold listeners_default.
  destruct (event_listeners s !! ty); [done|].
  cbn [event_listeners set_event_listeners]. by rewrite lookup_insert_ne.
Qed.

Lemma listeners_default_frame (ty : EventType) (s : Simulator) :
  event_queue (listeners_default ty s) = event_queue s /\
  trace_reader (listeners_default ty s) = trace_reader s /\
  current_time (listeners_default ty s) = current_time s.
Proof. unfold listeners_default. by destruct (event_listeners s !! ty). Qed.

(** C2.  The code at an event that carries the timestamp 0 while the
    simulated time is 5: [broadcast] raises nothing and stamps the event
    with 5, although the preset timestamp differs from the current
    time. *)
Theorem broadcast_zero_timestamp_restamped :
  let ev := Examples.trace_event 0 in
  let s := Examples.at_time 5 in
  timestamp ev = Some 0 /\ current_time s = Some 5 /\
  stamp ev s = Ok (Examples.trace_event 5) /\
  forall handler_sem filter_sem fuel,
    broadcast handler_sem filter_sem fuel ev s
    = Ok (listeners_default (DOMAIN 0) s, Examples.trace_event 5, []).
Proof.
  repeat split. intros handler_sem filter_sem fuel.
  unfold broadcast. destruct fuel; reflexivity.
Qed.

Section Bus.

Variable handler_sem : HandlerId -> Event -> Simulator -> Result Simulator.
Variable filter_sem : FilterId -> Event -> bool.

Lemma fan_out_nothing (fuel : nat) (ev : Event) (s : Simulator)
    (calls : list HandlerId) (i : nat) :
  (length (listeners_of (event_type ev) s) <= i)%nat ->
  fan_out handler_sem filter_sem fuel ev i s calls = Ok (s, calls).
Proof.
  intros Hlen. unfold listeners_of in Hlen.
  destruct fuel; simpl;
    destruct (event_listeners s !! event_type ev) as [ls|]; try done;
    by rewrite (lookup_ge_None_2 _ _ Hlen).
Qed.

Lemma due_handlers_app (ev : Event) (l1 l2 : list (option FilterId * HandlerId)) :
  due_handlers filter_sem ev (l1 ++ l2)
  = due_handlers filter_sem ev l1 ++ due_handlers filter_sem ev l2.
Proof.
  induction l1 as [|[[f|] h] l1 IH]; simpl; [done| |by rewrite IH].
  destruct (filter_sem f ev); simpl; by rewrite IH.
Qed.

Lemma due_handlers_accepted (ev : Event) (f : option FilterId) (h : HandlerId)
    (l : list (option FilterId * HandlerId)) :
  accepted filter_sem ev f ->
  due_handlers filter_sem ev ((f, h) :: l) = h :: due_handlers filter_sem ev l.
Proof. intros [->|(g & -> & Hg)]; simpl; [done|by rewrite Hg]. Qed.

Lemma elem_of_due_handlers (ev : Event) (l : list (option FilterId * HandlerId))
    (h : HandlerId) :
  h ∈ due_handlers filter_sem ev l
  <-> exists f, (f, h) ∈ l /\ accepted filter_sem ev f.
Proof.
  induction l as [|[f h'] l IH].
  - simpl. split; [by intros ?%elem_of_nil|].
    by intros (f & ?%elem_of_nil & _).
  - assert (Hcons : forall f0, (f0, h) ∈ (f, h') :: l
                               <-> (f0 = f /\ h = h') \/ (f0, h) ∈ l).
    { intros f0. rewrite elem_of_cons. split.
      - intros [[= -> ->]|Hin]; [by left|by right].
      - intros [[-> ->]|Hin]; [by left|by right]. }
    assert (Hrest : h ∈ due_handlers filter_sem ev l ->
              exists f0, (f0, h) ∈ (f, h') :: l /\ accepted filter_sem ev f0).
    { intros (f0 & Hin & Ha)%IH. exists f0. split; [by right|done]. }
    destruct f as [g|]; simpl; [destruct (filter_sem g ev) eqn:Hg|].
    + rewrite elem_of_cons. split.
      * intros [->|Hin]; [|by apply Hrest].
        exists (Some g). split; [by left|]. right. by exists g.
      * intros (f0 & [[_ ->]|Hin]%Hcons & Ha); [by left|].
        right. apply IH. by exists f0.
    + split; [apply Hrest|].
      intros (f0 & [[-> ->]|Hin]%Hcons & Ha).
      * destruct Ha as [?|(g' & [= <-] & Hg')]; congruence.
      * apply IH. by exists f0.
    + rewrite elem_of_cons. split.
      * intros [->|Hin]; [|by apply Hrest].
        exists None. split; [by left|by left].
      * intros (f0 & [[_ ->]|Hin]%Hcons & Ha); [by left|].
        right. apply IH. by exists f0.
Qed.

Lemma run_handlers_app (hs1 hs2 : list HandlerId) (ev : Event) (s : Simulator) :
  run_handlers handler_sem (hs1 ++ hs2) ev s
  = (s1 ← run_handlers handler_sem hs1 ev s; run_handlers handler_sem hs2 ev s1).
Proof.
  revert s. induction hs1 as [|h hs1 IH]; intros s; simpl; [done|].
  destruct (handler_sem h ev s) as [s1| |]; simpl; [apply IH|done|done].
Qed.

(** The loop of [broadcast] from position [i] on, when the handlers that
    are due leave the sequence alone: the handlers due among the pairs
    that are left, one after the other. *)
Lemma fan_out_run_handlers (ev : Event) (ls : Listeners)
    (rest : list (option FilterId * HandlerId)) :
  forall (i fuel : nat) (s : Simulator) (calls : list HandlerId),
    event_listeners s !! event_type ev = Some ls ->
    drop i (seq_items ls) = rest ->
    (forall h, h ∈ due_handlers filter_sem ev rest ->
               keeps_listeners handler_sem (event_type ev) h) ->
    (length rest <= fuel)%nat ->
    fan_out handler_sem filter_sem fuel ev i s calls
    = (s' ← run_handlers handler_sem (due_handlers filter_sem ev rest) ev s;
       Ok (s', calls ++ due_handlers filter_sem ev rest)).
Proof.
  induction rest as [|[f h] rest IH]; intros i fuel s calls Hls Hdrop Hk Hfuel.
  - simpl. rewrite app_nil_r.
    apply fan_out_nothing. unfold listeners_of. rewrite Hls.
    by apply drop_nil_inv in Hdrop.
  - assert (Hi : seq_items ls !! i = Some (f, h)).
    { rewrite <- (Nat.add_0_r i), <- lookup_drop, Hdrop. done. }
    assert (Hrest : drop (S i) (seq_items ls) = rest).
    { by rewrite (drop_S _ _ _ Hi) in Hdrop; injection Hdrop. }
    destruct fuel as [|fuel]; [simpl in Hfuel; lia|].
    assert (Hfuel' : (length rest <= fuel)%nat) by (simpl in Hfuel; lia).
    assert (Hcall : (forall h', h' ∈ h :: due_handlers filter_sem ev rest ->
                       keeps_listeners handler_sem (event_type ev) h') ->
              match seq_kind ls with
              | PyDeque =>
                  s' ← handler_sem h ev s;
                  if bool_decide (length (listeners_of (event_type ev) s')
                                  = length (seq_items ls))
                  then fan_out handler_sem filter_sem fuel ev (S i) s' (calls ++ [h])
                  else Raise (RuntimeError "deque mutated during iteration")
              | PyList =>
                  s' ← handler_sem h ev s;
                  fan_out handler_sem filter_sem fuel ev (S i) s' (calls ++ [h])
              end
              = (s' ← run_handlers handler_sem
                        (h :: due_handlers filter_sem ev rest) ev s;
                 Ok (s', calls ++ h :: due_handlers filter_sem ev rest))).
    { intros Hk'. cbn [run_handlers].
      destruct (handler_sem h ev s) as [s1| |] eqn:Hh;
        [|by destruct (seq_kind ls)|by destruct (seq_kind ls)].
      assert (Hls1 : event_listeners s1 !! event_type ev = Some ls).
      { rewrite (Hk' h ltac:(left) ev s s1 Hh). exact Hls. }
      assert (Hnext : fan_out handler_sem filter_sem fuel ev (S i) s1 (calls ++ [h])
                = (s' ← run_handlers handler_sem
                          (due_handlers filter_sem ev rest) ev s1;
                   Ok (s', calls ++ h :: due_handlers filter_sem ev rest))).
      { rewrite (IH (S i) fuel s1 (calls ++ [h]) Hls1 Hrest); [|
          intros h' Hin; apply Hk'; by right|done].
        by rewrite <- app_assoc. }
      simpl. destruct (seq_kind ls); [exact Hnext|].
      unfold listeners_of. rewrite Hls1.
      by rewrite bool_decide_eq_true_2. }
    cbn [fan_out]. rewrite Hls, Hi.
    destruct f as [g|]; cbn [passes due_handlers] in *.
    + destruct (filter_sem g ev).
      * destruct (seq_kind ls); by apply Hcall.
      * by apply IH.
    + destruct (seq_kind ls); by apply Hcall.
Qed.

(** C10.  Broadcasting an event whose type has no subscription, once
    the timestamp check has passed, returns normally and invokes no
    handler (whatever the fuel); the only change to the simulator is
    that an empty sequence may be stored for that type, and the
    subscriptions of every other type are as before. *)
Theorem broadcast_without_subscribers (fuel : nat) (ev ev' : Event) (s : Simulator) :
  stamp ev s = Ok ev' ->
  listeners_of (event_type ev) s = [] ->
  broadcast handler_sem filter_sem fuel ev s
    = Ok (listeners_default (event_type ev) s, ev', []) /\
  listeners_of (event_type ev) (listeners_default (event_type ev) s) = [] /\
  (forall ty : EventType, ty ≠ event_type ev ->
     event_listeners (listeners_default (event_type ev) s) !! ty
     = event_listeners s !! ty) /\
  event_queue (listeners_default (event_type ev) s) = event_queue s /\
  current_time (listeners_default (event_type ev) s) = current_time s.
Proof.
  intros Hstamp Hnone.
  pose proof (stamp_event_type _ _ _ Hstamp) as Hty.
  destruct (listeners_default_lookup (event_type ev) s) as (ls & Hls & Hitems).
  assert (Hempty : listeners_of (event_type ev) (listeners_default (event_type ev) s) = []).
  { unfold listeners_of at 1. rewrite Hls. congruence. }
  repeat split.
  - unfold broadcast. rewrite Hstamp. simpl. rewrite Hty.
    rewrite fan_out_nothing; [done|]. rewrite Hty, Hempty. simpl. lia.
  - exact Hempty.
  - intros ty Hne. by apply listeners_default_other.
  - apply listeners_default_frame.
  - apply listeners_default_frame.
Qed.


End Bus.

Lemma broadcast_without_subscribers_witness :
  broadcast Examples.idle_handlers Examples.open_filters 0
    Examples.unstamped_event (Examples.at_time 5)
  = Ok (listeners_default (DOMAIN 0) (Examples.at_time 5),
        Examples.trace_event 5, []).
Proof.
  exact (proj1 (broadcast_without_subscribers
                  Examples.idle_handlers Examples.open_filters 0
                  Examples.unstamped_event (Examples.trace_event 5)
                  (Examples.at_time 5) eq_refl eq_refl)).
Defined.

Lemma noting_handlers_keep (ty : EventType) (h : HandlerId) :
  keeps_listeners Examples.noting_handlers ty h.
Proof. by intros ev s s' [= <-]. Qed.



(** ** Event queue *)

Lemma Forall_at {A : Type} (P : A -> Prop) (l : list A) (x : A) :
  Forall P l -> x ∈ l -> P x.
Proof. intros H Hx. by apply (proj1 (Forall_forall P l) H). Qed.

Lemma ts_ltb_irrefl (a : option Z) : ts_ltb a a = false.
Proof. destruct a; simpl; [apply Z.ltb_irrefl|done]. Qed.

Ltac key_cases :=
  unfold key_leb, ts_ltb; simpl;
  repeat match goal with
         | |- context [match ?x with Some _ => _ | None => _ end] => destruct x
         | H : context [match ?x with Some _ => _ | None => _ end] |- _ => destruct x
         end;
  repeat match goal with
         | |- context [?x <? ?y] => destruct (Z.ltb_spec x y)
         | H : context [?x <? ?y] |- _ => destruct (Z.ltb_spec x y)
         | |- context [?x <=? ?y] => destruct (Z.leb_spec x y)
         | H : context [?x <=? ?y] |- _ => destruct (Z.leb_spec x y)
         end;
  try done; try lia.

Lemma key_leb_total (a b : Key) : key_leb a b = false -> key_leb b a = true.
Proof. destruct a as [ta pa], b as [tb pb]. key_cases. Qed.

Lemma key_leb_trans (a b c : Key) :
  key_leb a b = true -> key_leb b c = true -> key_leb a c = true.
Proof. destruct a as [ta pa], b as [tb pb], c as [tc pc]. key_cases. Qed.

Lemma key_leb_timestamps (x y p p' : Z) :
  key_leb (Some x, p) (Some y, p') = true -> x <= y.
Proof. key_cases. Qed.

Lemma key_leb_set (a : Z) (pa : Z) (k : Key) :
  key_leb (Some a, pa) k = true -> exists b, fst k = Some b.
Proof. destruct k as [[b|] pb]; [by exists b|]. key_cases. Qed.

Lemma pq_push_perm (ev : Event) (k : Key) (q : PriorityQueue) :
  pq_push ev k q ≡ₚ (k, ev) :: q.
Proof.
  induction q as [|[k' ev'] q IH]; simpl; [done|].
  destruct (key_leb k' k); [|done].
  rewrite IH. apply Permutation_swap.
Qed.

Lemma pq_push_sorted (ev : Event) (k : Key) (q : PriorityQueue) :
  pq_sorted q -> pq_sorted (pq_push ev k q).
Proof.
  unfold pq_sorted. induction q as [|[k' ev'] q IH]; simpl.
  - intros _. by repeat constructor.
  - intros [Hall Hq]%StronglySorted_cons.
    destruct (key_leb k' k) eqn:E; apply StronglySorted_cons.
    + split; [|by apply IH].
      rewrite (pq_push_perm ev k q). by constructor.
    + split; [|by apply StronglySorted_cons].
      apply key_leb_total in E. constructor; [done|].
      eapply Forall_impl; [exact Hall|]. intros [k2 e2] H2. simpl in *.
      by eapply key_leb_trans.
Qed.

Lemma pq_pop_sorted (q : PriorityQueue) : pq_sorted q -> pq_sorted (pq_pop q).
Proof.
  unfold pq_sorted. destruct q as [|x q]; [done|].
  by intros [_ H]%StronglySorted_cons.
Qed.

Lemma foldl_push_perm (f : Event -> Key) (l : list Event) (q : PriorityQueue) :
  foldl (fun q x => pq_push x (f x) q) q l ≡ₚ q ++ map (fun x => (f x, x)) l.
Proof.
  revert q. induction l as [|x l IH]; intros q; simpl.
  - by rewrite app_nil_r.
  - rewrite IH, pq_push_perm. simpl. apply Permutation_middle.
Qed.

Lemma foldl_push_sorted (f : Event -> Key) (l : list Event) (q : PriorityQueue) :
  pq_sorted q -> pq_sorted (foldl (fun q x => pq_push x (f x) q) q l).
Proof.
  revert q. induction l as [|x l IH]; intros q Hq; simpl; [done|].
  apply IH. by apply pq_push_sorted.
Qed.

Lemma StronglySorted_lookup {A : Type} (R : A -> A -> Prop) (l : list A)
    (i j : nat) (a b : A) :
  StronglySorted R l -> (i < j)%nat ->
  l !! i = Some a -> l !! j = Some b -> R a b.
Proof.
  intros Hs Hij Ha Hb. rewrite <- (take_drop j l) in Hs.
  eapply StronglySorted_app_1_elem_of; [exact Hs| |].
  - apply elem_of_take. eauto.
  - apply (list_elem_of_lookup_2 _ 0%nat). by rewrite lookup_drop, Nat.add_0_r.
Qed.

Lemma pq_drain_lookup (q : PriorityQueue) (i : nat) (k : Key) (ev : Event) :
  q !! i = Some (k, ev) -> pq_drain q !! i = Some ev.
Proof.
  revert i. induction q as [|x q IH]; intros [|i]; simpl; try done.
  - by intros [= ->].
  - apply IH.
Qed.

(** In a queue whose keys ascend an entry of priority class ALARM
    stands before an entry of priority class TRACE with the same
    timestamp, so [pop] returns the alarm first. *)
Lemma pq_sorted_alarm_before_trace (q : PriorityQueue) (ts : option Z)
    (al tr : Event) (i j : nat) :
  pq_sorted q ->
  q !! i = Some ((ts, Priority.ALARM), al) ->
  q !! j = Some ((ts, Priority.TRACE), tr) ->
  (i < j)%nat /\ pq_drain q !! i = Some al /\ pq_drain q !! j = Some tr.
Proof.
  intros Hs Hi Hj. split.
  - destruct (decide (i < j)%nat) as [|Hge]; [done|].
    destruct (decide (i = j)) as [->|Hne].
    { rewrite Hi in Hj. injection Hj as Hp _. discriminate Hp. }
    assert (Hji : (j < i)%nat) by lia.
    pose proof (StronglySorted_lookup _ _ _ _ _ _ Hs Hji Hj Hi) as Hle.
    simpl in Hle. unfold key_leb in Hle. simpl in Hle.
    by rewrite ts_ltb_irrefl in Hle.
  - split; eapply pq_drain_lookup; eassumption.
Qed.

Lemma key_leb_alarm_trace (ts : option Z) :
  key_leb (ts, Priority.ALARM) (ts, Priority.TRACE) = true.
Proof. unfold key_leb. simpl. by rewrite ts_ltb_irrefl. Qed.

Lemma key_leb_trace_alarm (ts : option Z) :
  key_leb (ts, Priority.TRACE) (ts, Priority.ALARM) = false.
Proof. unfold key_leb. simpl. by rewrite ts_ltb_irrefl. Qed.

(** The head of a sorted queue that holds an alarm of some timestamp is
    no trace entry of that timestamp. *)
Lemma head_not_trace (k : Key) (cur : Event) (q : PriorityQueue) (al x : Event) :
  pq_sorted ((k, cur) :: q) ->
  alarm_entry al ∈ (k, cur) :: q ->
  timestamp al = timestamp x ->
  k ≠ (timestamp x, Priority.TRACE).
Proof.
  intros [Hmin _]%StronglySorted_cons Hin Hts Hk.
  apply elem_of_cons in Hin as [Heq|Hin].
  - unfold alarm_entry in Heq. injection Heq as Hk' _.
    rewrite Hk in Hk'. injection Hk' as _ Hp. discriminate Hp.
  - pose proof (Forall_at _ _ _ Hmin Hin) as Hle. simpl in Hle.
    by rewrite Hk, Hts, key_leb_trace_alarm in Hle.
Qed.

Lemma register_alarm_sorted (al : Event) (s : Simulator) :
  pq_sorted (event_queue s) -> pq_sorted (event_queue (register_alarm al s)).
Proof. apply pq_push_sorted. Qed.

Lemma populate_sorted (s : Simulator) :
  pq_sorted (event_queue s) ->
  pq_sorted (event_queue (populate_event_queue_from_trace s)).
Proof.
  apply (foldl_push_sorted (fun x => (timestamp x, Priority.TRACE))).
Qed.

Lemma populate_queue (s : Simulator) :
  event_queue (populate_event_queue_from_trace s)
  ≡ₚ event_queue s ++ map trace_entry (take 100 (trace_reader s)).
Proof. apply (foldl_push_perm (fun x => (timestamp x, Priority.TRACE))). Qed.

Lemma register_alarm_queue (al : Event) (s : Simulator) :
  event_queue (register_alarm al s) ≡ₚ alarm_entry al :: event_queue s.
Proof. apply pq_push_perm. Qed.

(** ** Debug controller *)

(** The sample of [int]: numerals it reads and texts it refuses.  The
    unit separator (code 31) is no white space for [int]; the vertical
    tab (code 11) is. *)
Lemma ascii_int_samples :
  ascii_int " 42 " = Some 42 /\ ascii_int "-7" = Some (-7) /\
  ascii_int "+1_000" = Some 1000 /\ ascii_int "007" = Some 7 /\
  ascii_int "five" = None /\ ascii_int EmptyString = None /\
  ascii_int "1__0" = None /\ ascii_int "- 1" = None /\ ascii_int "1 2" = None /\
  ascii_int (String (ascii_of_nat 31) "3") = None /\
  ascii_int (String (ascii_of_nat 11) "3") = Some 3.
Proof. by vm_compute. Qed.

Lemma debug_command_malformed (py_int : string -> option Z) (cmd : string)
    (args : list string) (usage : string) (s : Simulator) :
  Malformed py_int cmd args usage ->
  debug_command py_int cmd args s = Ok (print usage s).
Proof.
  intros [args' Hlen|a Hint|args' Hlen|a Hon Hoff]; unfold debug_command; simpl.
  - destruct args' as [|a [|b args']]; simpl in *; done.
  - by rewrite Hint.
  - destruct args' as [|a [|b args']]; simpl in *; try done; lia.
  - destruct (String.eqb_spec a "on"); [done|].
    destruct (String.eqb_spec a "off"); done.
Qed.

(** C8.  A malformed command (a wrong number of arguments to [interval]
    or [verbose], an argument of [interval] that is no number, which is
    one that [int] refuses with [ValueError], whatever [int] accepts, an
    argument of [verbose] other than on and off) makes the debug
    controller print the usage message and go on to the next prompt:
    the loop carries on with the rest of the input, nothing but the
    console changed, no exception and no exit. *)
Theorem debug_malformed_reprompts (py_int : string -> option Z)
    (command : string) (rest : list string) (s : Simulator)
    (cmd : string) (args : list string) (usage : string) :
  split_space command = cmd :: args ->
  Malformed py_int cmd args usage ->
  let s1 := set_console_in rest (print prompt s) in
  debug_command py_int cmd args s1 = Ok (print usage s1) /\
  debug_loop py_int (command :: rest) s = debug_loop py_int rest (print usage s1) /\
  verbose (print usage s1) = verbose s /\
  debug_interval (print usage s1) = debug_interval s /\
  console_out (print usage s1) = console_out s ++ [prompt; usage].
Proof.
  intros Hsplit Hm s1.
  pose proof (debug_command_malformed py_int cmd args usage s1 Hm) as Hc.
  split; [exact Hc|]. split.
  - destruct command as [|c command].
    + simpl in Hsplit. injection Hsplit as <- <-. inversion Hm.
    + cbn [debug_loop]. rewrite Hsplit. fold s1. by rewrite Hc.
  - repeat split. simpl. by rewrite <- app_assoc.
Qed.

Lemma debug_malformed_reprompts_witness :
  debug ascii_int (init ["interval five"; "verbose loud"; "interval 3"; EmptyString])
  = Ok (set_console_in []
          (set_debug_interval 3
             (print prompt (print prompt (print usage_verbose_arg
                (print prompt (print usage_interval (print prompt
                   (init []))))))))).
Proof.
  unfold debug. cbn [console_in init].
  rewrite (proj1 (proj2 (debug_malformed_reprompts ascii_int "interval five" _ _
                  "interval" ["five"] usage_interval eq_refl
                  (interval_not_numeric ascii_int "five" eq_refl)))).
  rewrite (proj1 (proj2 (debug_malformed_reprompts ascii_int "verbose loud" _ _
                  "verbose" ["loud"] usage_verbose_arg eq_refl
                  (verbose_argument ascii_int "loud" ltac:(discriminate)
                     ltac:(discriminate))))).
  reflexivity.
Defined.

(** ** Trace feeder and alarm scheduler *)

Section Dispatch.

Variable py_int : string -> option Z.
Variable lookahead : TraceReader -> bool.
Variable handler_sem : HandlerId -> Event -> Simulator -> Result Simulator.
Variable filter_sem : FilterId -> Event -> bool.
Variable fire_sem : Event -> Simulator -> Result (Event * Simulator).
Variable show_event : Event -> string.

(** C4.  A pass of the run loop that finds fewer than 100 entries in
    the queue while the trace is not exhausted pulls the next events of
    the trace, at most 100, pushes each at priority class TRACE under
    its own timestamp, and ends there: no event is dispatched, the
    clock stands, and the loop goes on from the refilled queue. *)
Theorem run_iter_refill (fuel : nat) (s : Simulator) :
  pq_size (event_queue s) < EVENT_QUEUE_THRESHOLD ->
  end_of_trace (trace_reader s) = false ->
  let batch := take 100 (trace_reader s) in
  let s' := populate_event_queue_from_trace s in
  run_iter py_int lookahead handler_sem filter_sem fire_sem show_event fuel s
  = (None, Ok s') /\
  (length batch <= 100)%nat /\
  trace_reader s' = drop 100 (trace_reader s) /\
  event_queue s'
    = foldl (fun q x => pq_push x (timestamp x, Priority.TRACE) q)
            (event_queue s) batch /\
  event_queue s' ≡ₚ event_queue s ++ map trace_entry batch /\
  (forall x, x ∈ batch -> trace_entry x ∈ event_queue s') /\
  current_time s' = current_time s /\
  event_listeners s' = event_listeners s /\
  run_loop py_int lookahead handler_sem filter_sem fire_sem show_event (S fuel) s
  = run_loop py_int lookahead handler_sem filter_sem fire_sem show_event fuel s'.
Proof.
  intros Hsize Htrace batch s'.
  assert (Hiter : run_iter py_int lookahead handler_sem filter_sem fire_sem
                    show_event fuel s = (None, Ok s')).
  { unfold run_iter. rewrite Htrace.
    destruct (Z.ltb_spec (pq_size (event_queue s)) EVENT_QUEUE_THRESHOLD);
      [done|lia]. }
  assert (Hperm : event_queue s' ≡ₚ event_queue s ++ map trace_entry batch).
  { apply (foldl_push_perm (fun x => (timestamp x, Priority.TRACE))). }
  repeat split; try done.
  - subst batch. rewrite length_take. lia.
  - intros x Hx. rewrite Hperm. apply elem_of_app. right.
    by apply (list_elem_of_fmap_2 trace_entry).
  - cbn [run_loop]. rewrite Htrace, Hiter. simpl.
    by destruct (run_loop py_int lookahead handler_sem filter_sem fire_sem show_event fuel s').
Qed.

(** C5.  Executing an alarm fires it and broadcasts nothing.  When the
    alarm is repeating after [fire], it is pushed again at priority
    class ALARM under the timestamp that [fire] left, so that an alarm
    fired at time [T] whose fire action moved it to [T + P] is queued
    for the time [T + P]; an alarm that is not repeating is not pushed,
    and the queue is as [fire] left it. *)
Theorem execute_alarm (fuel : nat) (ev ev' : Event) (s s' : Simulator)
    (a : AlarmData) :
  event_type ev = SIM_ALARM ->
  fire fire_sem ev s = Ok (ev', s') ->
  alarm ev' = Some a ->
  let q' := pq_push ev' (timestamp ev', Priority.ALARM) (event_queue s') in
  (repeating a = true ->
     execute_event py_int handler_sem filter_sem fire_sem fuel ev s
     = Ok (set_event_queue q' s', []) /\
     ((timestamp ev', Priority.ALARM), ev') ∈ q' /\
     q' ≡ₚ ((timestamp ev', Priority.ALARM), ev') :: event_queue s' /\
     (forall T P, timestamp ev = Some T -> timestamp ev' = Some (T + P) ->
        exists t k, (k, ev') ∈ q' /\ k = (Some t, Priority.ALARM) /\
                    timestamp ev' = Some t /\ T + P <= t)) /\
  (repeating a = false ->
     execute_event py_int handler_sem filter_sem fire_sem fuel ev s = Ok (s', [])).
Proof.
  intros Hty Hfire Ha q'.
  assert (Hin : ((timestamp ev', Priority.ALARM), ev') ∈ q').
  { subst q'. rewrite pq_push_perm. by left. }
  split; intros Hrep.
  - repeat split.
    + unfold execute_event. rewrite Hty, Hfire. simpl.
      unfold is_repeating. rewrite Ha. simpl. by rewrite Hrep.
    + exact Hin.
    + apply pq_push_perm.
    + intros T P HT HT'. exists (T + P), (timestamp ev', Priority.ALARM).
      split; [exact Hin|]. rewrite HT'. repeat split. lia.
  - unfold execute_event. rewrite Hty, Hfire. simpl.
    unfold is_repeating. rewrite Ha. simpl. by rewrite Hrep.
Qed.

End Dispatch.

Lemma run_iter_refill_witness :
  let s := set_trace_reader [Examples.trace_event 1; Examples.trace_event 2]
             (init []) in
  run_iter ascii_int Examples.full_lookahead Examples.idle_handlers
    Examples.open_filters Examples.advancing_fire
    Examples.show_nothing 0 s
  = (None, Ok (populate_event_queue_from_trace s)).
Proof.
  intros s.
  refine (proj1 (run_iter_refill ascii_int Examples.full_lookahead
                   Examples.idle_handlers Examples.open_filters
                   Examples.advancing_fire Examples.show_nothing 0 s _ _)).
  - vm_compute. reflexivity.
  - reflexivity.
Defined.

Lemma execute_alarm_witness :
  execute_event ascii_int Examples.idle_handlers Examples.open_filters
    Examples.advancing_fire 0 (Examples.alarm_event 4 3 true) (Examples.at_time 4)
  = Ok (set_event_queue
          [((Some 7, Priority.ALARM), Examples.alarm_event 7 3 true)]
          (Examples.at_time 4), []).
Proof.
  refine (proj1 (proj1 (execute_alarm ascii_int
                   Examples.idle_handlers Examples.open_filters
                   Examples.advancing_fire 0 (Examples.alarm_event 4 3 true)
                   (Examples.alarm_event 7 3 true) (Examples.at_time 4)
                   (Examples.at_time 4)
                   {| period := 3; repeating := true; fire_action := 0 |}
                   eq_refl eq_refl eq_refl) eq_refl)).
Defined.

(** ** Run loop: the order of dispatch *)

Lemma default_last_cons {A : Type} (a b x : A) (l : list A) :
  default a (last (x :: l)) = default b (last (x :: l)).
Proof.
  revert x. induction l as [|y l IH]; intros x; [done|]. apply (IH y).
Qed.

Lemma not_before_trans (clock : option Z) (t u : Z) :
  not_before clock t -> t <= u -> not_before clock u.
Proof. destruct clock; simpl; [lia|done]. Qed.

Lemma event_due_later (clock : option Z) (now : Z) (x : Event) :
  not_before clock now -> event_due (Some now) x -> event_due clock x.
Proof.
  intros Hc (t & Ht & Hle). exists t. split; [done|].
  by apply (not_before_trans clock now).
Qed.

Lemma schedule_ok_frame (clock : option Z) (s s' : Simulator) :
  event_queue s' = event_queue s -> trace_reader s' = trace_reader s ->
  schedule_ok clock s -> schedule_ok clock s'.
Proof. unfold schedule_ok. by intros -> ->. Qed.

Lemma trace_ordered_drop (n : nat) (tr : TraceReader) :
  trace_ordered tr -> trace_ordered (drop n tr).
Proof.
  unfold trace_ordered. intros H. rewrite <- (take_drop n tr) in H.
  by apply StronglySorted_app_1_r in H.
Qed.

Lemma schedule_ok_populate (clock : option Z) (s : Simulator) :
  schedule_ok clock s -> schedule_ok clock (populate_event_queue_from_trace s).
Proof.
  intros (Hsorted & Hq & Htr & Hdue).
  unfold schedule_ok, populate_event_queue_from_trace. simpl.
  repeat split.
  - by apply foldl_push_sorted.
  - rewrite (foldl_push_perm (fun x => (timestamp x, Priority.TRACE))).
    apply Forall_app. split; [done|].
    apply Forall_forall. intros e (x & -> & Hx)%list_elem_of_fmap.
    split; [done|]. simpl.
    eapply Forall_at; [|exact Hx]. by apply Forall_take.
  - by apply trace_ordered_drop.
  - by apply Forall_drop.
Qed.

Lemma schedule_ok_registers (now : Z) (s s' : Simulator) :
  registers_from now s s' -> schedule_ok (Some now) s ->
  schedule_ok (Some now) s'.
Proof.
  intros (alarms & Hal & Hq' & Htr' & _) (Hsorted & Hq & Htr & Hdue).
  unfold schedule_ok. rewrite Hq', Htr'. repeat split; try done.
  - by apply foldl_push_sorted.
  - rewrite (foldl_push_perm (fun x => (timestamp x, Priority.ALARM))).
    apply Forall_app. split; [done|].
    apply Forall_forall. intros e (x & -> & Hx)%list_elem_of_fmap.
    split; [done|]. exact (Forall_at _ _ _ Hal Hx).
Qed.

(** The turn of the clock: when the head of the queue is not after the
    next event of the trace, everything scheduled is due at the head's
    timestamp. *)
Lemma schedule_ok_turn (lookahead : TraceReader -> bool) (clock : option Z)
    (s : Simulator) (k : Key) (cur_event : Event) (q : PriorityQueue) :
  looks_ahead lookahead ->
  schedule_ok clock s ->
  event_queue s = (k, cur_event) :: q ->
  (forall trace_event, peek_event lookahead (trace_reader s) = Some trace_event ->
     py_gt (timestamp cur_event) (timestamp trace_event) = Ok false) ->
  exists now,
    timestamp cur_event = Some now /\ not_before clock now /\
    schedule_ok (Some now) (set_event_queue q s).
Proof.
  intros Hlook (Hsorted & Hq & Htr & Hdue) Hqueue Hpeek.
  rewrite Hqueue in Hsorted, Hq.
  apply StronglySorted_cons in Hsorted as [Hmin Hsorted].
  apply Forall_cons in Hq as [[Hkey (now & Hnow & Hclock)] Hq].
  simpl in Hkey, Hnow.
  exists now. split; [done|]. split; [done|].
  unfold schedule_ok. simpl. repeat split; try done.
  - apply Forall_forall. intros [k2 e2] Hin.
    pose proof (Forall_at _ _ _ Hmin Hin) as Hle.
    pose proof (Forall_at _ _ _ Hq Hin) as [Hk2 (t2 & Ht2 & _)].
    simpl in *. split; [done|]. exists t2. split; [done|].
    destruct k as [tk pk], k2 as [tk2 pk2]. simpl in *.
    rewrite Hkey, Hnow, Hk2, Ht2 in Hle.
    by apply key_leb_timestamps in Hle.
  - destruct (trace_reader s) as [|te tr] eqn:Etr; [done|].
    assert (Hte : peek_event lookahead (te :: tr) = Some te).
    { unfold peek_event. by rewrite (Hlook (te :: tr) eq_refl). }
    specialize (Hpeek te Hte).
    apply Forall_cons in Hdue as [(x & Hx & _) Hdue].
    apply StronglySorted_cons in Htr as [Hhead _].
    rewrite Hnow, Hx in Hpeek. simpl in Hpeek.
    assert (Hle : now <= x).
    { injection Hpeek as Hlt. by apply Z.ltb_ge in Hlt. }
    constructor.
    + exists x. by split.
    + apply Forall_forall. intros e He.
      pose proof (Forall_at _ _ _ Hhead He) as (x' & y & Hx' & Hy & Hxy).
      exists y. split; [done|]. simpl. rewrite Hx in Hx'. injection Hx' as <-. lia.
Qed.

Lemma debug_command_frame (py_int : string -> option Z) (cmd : string)
    (args : list string) (s s' : Simulator) :
  debug_command py_int cmd args s = Ok s' ->
  event_queue s' = event_queue s /\ trace_reader s' = trace_reader s /\
  current_time s' = current_time s /\ event_listeners s' = event_listeners s.
Proof.
  unfold debug_command.
  repeat match goal with
         | |- context [if ?b then _ else _] => destruct b
         | |- context [match ?x with _ => _ end] => destruct x
         end; try done; by intros [= <-].
Qed.

Lemma debug_loop_frame (py_int : string -> option Z) (lines : list string)
    (s s' : Simulator) :
  debug_loop py_int lines s = Ok s' ->
  event_queue s' = event_queue s /\ trace_reader s' = trace_reader s /\
  current_time s' = current_time s /\ event_listeners s' = event_listeners s.
Proof.
  revert s. induction lines as [|command rest IH]; intros s; [done|].
  cbn [debug_loop]. destruct command as [|c command].
  - by intros [= <-].
  - destruct (split_space (String c command)) as [|cmd args]; [done|].
    destruct (debug_command py_int cmd args _) as [s2| |] eqn:E; try done.
    simpl. intros H. apply IH in H as (-> & -> & -> & ->).
    by apply debug_command_frame in E.
Qed.

Lemma debug_frame (py_int : string -> option Z) (s s' : Simulator) :
  debug py_int s = Ok s' ->
  event_queue s' = event_queue s /\ trace_reader s' = trace_reader s /\
  current_time s' = current_time s /\ event_listeners s' = event_listeners s.
Proof. apply debug_loop_frame. Qed.

Section Ordering.

Variable py_int : string -> option Z.
Variable lookahead : TraceReader -> bool.
Variable handler_sem : HandlerId -> Event -> Simulator -> Result Simulator.
Variable filter_sem : FilterId -> Event -> bool.
Variable fire_sem : Event -> Simulator -> Result (Event * Simulator).
Variable show_event : Event -> string.

(** What the loop relies on: a callback that returns leaves the clock
    alone and the schedule due. *)
Hypothesis reader_looks_ahead : looks_ahead lookahead.

Hypothesis handlers_keep : forall h ev s s' now,
  handler_sem h ev s = Ok s' -> current_time s = Some now ->
  schedule_ok (Some now) s ->
  current_time s' = Some now /\ schedule_ok (Some now) s'.

Hypothesis fire_keeps : forall ev s ev' s' now,
  fire_sem ev s = Ok (ev', s') -> current_time s = Some now ->
  schedule_ok (Some now) s ->
  current_time s' = Some now /\ schedule_ok (Some now) s' /\
  (forall a, alarm ev' = Some a -> repeating a = true ->
             event_due (Some now) ev').

Lemma fan_out_keeps (now : Z) (ev : Event) (fuel : nat) :
  forall (i : nat) (s : Simulator) (calls : list HandlerId) s' calls',
    fan_out handler_sem filter_sem fuel ev i s calls = Ok (s', calls') ->
    current_time s = Some now -> schedule_ok (Some now) s ->
    current_time s' = Some now /\ schedule_ok (Some now) s'.
Proof.
  induction fuel as [|fuel IH]; intros i s calls s' calls' H Hnow Hok;
    cbn [fan_out] in H;
    (destruct (event_listeners s !! event_type ev) as [ls|];
       [|by injection H as <- <-]);
    (destruct (seq_items ls !! i) as [[f h]|];
       [|by injection H as <- <-]); [done|].
  destruct (passes filter_sem f ev); [|by eapply IH].
  destruct (handler_sem h ev s) as [s1| |] eqn:Hh; try done.
  simpl in H. destruct (handlers_keep _ _ _ _ _ Hh Hnow Hok) as [Hnow1 Hok1].
  destruct (seq_kind ls); [by eapply IH|].
  case_bool_decide; [by eapply IH|done].
Qed.

Lemma broadcast_keeps (now : Z) (fuel : nat) (ev ev' : Event) (s s' : Simulator)
    (calls : list HandlerId) :
  broadcast handler_sem filter_sem fuel ev s = Ok (s', ev', calls) ->
  current_time s = Some now -> schedule_ok (Some now) s ->
  current_time s' = Some now /\ schedule_ok (Some now) s'.
Proof.
  unfold broadcast. destruct (stamp ev s) as [ev1| |]; try done. simpl.
  destruct (fan_out _ _ _ _ _ _ _) as [[s1 c]| |] eqn:Hf; try done. simpl.
  intros [= <- <- <-] Hnow Hok.
  destruct (listeners_default_frame (event_type ev1) s) as (Hq & Htr & Hct).
  eapply fan_out_keeps; [exact Hf|congruence|].
  by apply (schedule_ok_frame _ s).
Qed.

Lemma execute_event_keeps (now : Z) (fuel : nat) (ev : Event) (s s' : Simulator)
    (calls : list HandlerId) :
  execute_event py_int handler_sem filter_sem fire_sem fuel ev s = Ok (s', calls) ->
  current_time s = Some now -> schedule_ok (Some now) s ->
  current_time s' = Some now /\ schedule_ok (Some now) s'.
Proof.
  unfold execute_event. intros H Hnow Hok.
  destruct (event_type ev).
  - destruct (debug py_int s) as [s1| |] eqn:Hd; try done.
    simpl in H. injection H as <- <-.
    apply debug_frame in Hd as (Hq & Htr & Hct & _).
    split; [congruence|]. by apply (schedule_ok_frame _ s).
  - unfold fire in H. destruct (alarm ev) as [a0|]; [|done].
    destruct (fire_sem ev s) as [[ev1 s1]| |] eqn:Hfire; try done.
    simpl in H.
    destruct (fire_keeps _ _ _ _ _ Hfire Hnow Hok) as (Hnow1 & Hok1 & Hdue).
    unfold is_repeating in H. destruct (alarm ev1) as [a|]; [|done].
    simpl in H. destruct (repeating a) eqn:Hrep.
    + injection H as <- <-. split; [done|].
      destruct Hok1 as (Hs & Hq & Htr & Htrd).
      unfold schedule_ok. simpl. repeat split; try done.
      * by apply pq_push_sorted.
      * rewrite pq_push_perm. constructor; [|done]. split; [done|].
        by apply (Hdue a).
    + by injection H as <- <-.
  - destruct (broadcast _ _ _ _ _) as [[[s1 ev1] c]| |] eqn:Hb; try done.
    simpl in H. injection H as <- <-. by eapply broadcast_keeps.
Qed.

Lemma dispatch_keeps (now : Z) (fuel : nat) (cur_event : Event) (s s' : Simulator) :
  timestamp cur_event = Some now ->
  schedule_ok (Some now) s ->
  dispatch py_int handler_sem filter_sem fire_sem show_event fuel cur_event s = Ok s' ->
  current_time s' = Some now /\ schedule_ok (Some now) s'.
Proof.
  intros Hts Hok. unfold dispatch.
  set (s1 := set_current_time (timestamp cur_event) s).
  set (s2 := if verbose s1 then print (show_event cur_event) s1 else s1).
  assert (H2 : current_time s2 = Some now /\ schedule_ok (Some now) s2).
  { subst s2. destruct (verbose s1); split; try done;
      by apply (schedule_ok_frame _ s). }
  destruct H2 as [Hnow2 Hok2]. clearbody s2. clear s1.
  set (s2' := set_debug_interval_cnt (debug_interval_cnt s2 + 1) s2).
  assert (H2' : current_time s2' = Some now /\ schedule_ok (Some now) s2').
  { split; [done|]. by apply (schedule_ok_frame _ s2). }
  destruct H2' as [Hnow2' Hok2'].
  match goal with
  | |- context [mbind _ ?r] => destruct r as [s3| |] eqn:H3; try done
  end.
  simpl.
  assert (H3' : current_time s3 = Some now /\ schedule_ok (Some now) s3).
  { destruct (debug_mode s2); [|by injection H3 as <-].
    destruct (debug_interval_cnt s2' =? debug_interval s2');
      [|by injection H3 as <-].
    destruct (debug py_int s2') as [s4| |] eqn:Hd; try done.
    simpl in H3. injection H3 as <-.
    apply debug_frame in Hd as (Hq & Htr & Hct & _).
    split; [simpl; congruence|]. by apply (schedule_ok_frame _ s2'). }
  destruct H3' as [Hnow3 Hok3].
  destruct (execute_event _ _ _ _ _ _ _) as [[s4 c]| |] eqn:He; try done.
  simpl. intros [= <-]. by eapply execute_event_keeps.
Qed.

(** One pass of the loop: a refill dispatches nothing and leaves the
    clock; a dispatch takes an event that is due and sets the clock to
    its timestamp. *)
Lemma run_iter_keeps (fuel : nat) (s : Simulator) (d : option Event)
    (r : Result Simulator) :
  schedule_ok (current_time s) s ->
  run_iter py_int lookahead handler_sem filter_sem fire_sem show_event fuel s = (d, r) ->
  match d with
  | None =>
      forall s', r = Ok s' ->
        current_time s' = current_time s /\ schedule_ok (current_time s') s'
  | Some cur_event =>
      exists now,
        timestamp cur_event = Some now /\ not_before (current_time s) now /\
        forall s', r = Ok s' ->
          current_time s' = Some now /\ schedule_ok (Some now) s'
  end.
Proof.
  intros Hok. unfold run_iter.
  assert (Hpop : forall s', Ok (populate_event_queue_from_trace s) = Ok s' ->
            current_time s' = current_time s /\ schedule_ok (current_time s') s').
  { intros s' [= <-]. split; [done|]. by apply schedule_ok_populate. }
  destruct ((pq_size (event_queue s) <? EVENT_QUEUE_THRESHOLD)
            && negb (end_of_trace (trace_reader s))).
  { by intros [= <- <-]. }
  destruct (event_queue s) as [|[k cur_event] q] eqn:Hq; simpl.
  { by intros [= <- <-]. }
  assert (Hgo : (forall te, peek_event lookahead (trace_reader s) = Some te ->
                   py_gt (timestamp cur_event) (timestamp te) = Ok false) ->
            exists now,
              timestamp cur_event = Some now /\ not_before (current_time s) now /\
              forall s',
                dispatch py_int handler_sem filter_sem fire_sem show_event fuel
                  cur_event (set_event_queue q s) = Ok s' ->
                current_time s' = Some now /\ schedule_ok (Some now) s').
  { intros Hpeek.
    destruct (schedule_ok_turn _ _ _ _ _ _ reader_looks_ahead Hok Hq Hpeek)
      as (now & Hts & Hnb & Hok').
    exists now. split; [done|]. split; [done|].
    intros s'. by apply dispatch_keeps. }
  destruct (peek_event lookahead (trace_reader s)) as [te|].
  - destruct (py_gt (timestamp cur_event) (timestamp te)) as [[|]| |] eqn:Hgt.
    + by intros [= <- <-].
    + intros [= <- <-]. apply Hgo. by intros te' [= <-].
    + by intros [= <- <-].
    + by intros [= <- <-].
  - intros [= <- <-]. by apply Hgo.
Qed.

Lemma run_loop_ordered (fuel : nat) :
  forall s : Simulator,
    schedule_ok (current_time s) s ->
    dispatch_ordered (current_time s)
      (fst (run_loop py_int lookahead handler_sem filter_sem fire_sem show_event fuel s)) /\
    forall s',
      snd (run_loop py_int lookahead handler_sem filter_sem fire_sem show_event
             fuel s) = Ok s' ->
      current_time s'
      = default (current_time s)
          (last (map timestamp
             (fst (run_loop py_int lookahead handler_sem filter_sem fire_sem
                     show_event fuel s)))).
Proof.
  assert (Hnil : forall c, dispatch_ordered c []).
  { intros c. exists []. by repeat constructor. }
  induction fuel as [|fuel IH]; intros s Hok; cbn [run_loop].
  { split; [apply Hnil|done]. }
  destruct (end_of_trace (trace_reader s) && pq_empty (event_queue s)).
  { split; [apply Hnil|]. simpl. by intros s' [= <-]. }
  destruct (run_iter _ _ _ _ _ _ fuel s) as [d r] eqn:Hiter.
  pose proof (run_iter_keeps _ _ _ _ Hok Hiter) as Hkeep.
  destruct d as [cur_event|].
  - destruct Hkeep as (now & Hts & Hnb & Hkeep).
    assert (Hone : dispatch_ordered (current_time s) [cur_event]).
    { exists [now]. simpl. rewrite Hts. by repeat constructor. }
    destruct r as [s1| |]; simpl; try (split; [exact Hone|done]).
    destruct (Hkeep s1 eq_refl) as [Hnow1 Hok1].
    rewrite <- Hnow1 in Hok1.
    destruct (IH s1 Hok1) as [(times & Hmap & Hsorted & Hbound) Hlast].
    destruct (run_loop _ _ _ _ _ _ fuel s1) as [ds r'] eqn:Hloop. simpl in *.
    split.
    + exists (now :: times). simpl. rewrite Hts, Hmap.
      split; [done|]. rewrite Hnow1 in Hbound. split.
      * by constructor.
      * constructor; [done|].
        eapply Forall_impl; [exact Hbound|]. intros t Ht. simpl in Ht.
        by apply (not_before_trans _ now).
    + intros s' Hr. rewrite (Hlast s' Hr), Hnow1, <- Hts.
      destruct ds as [|d0 ds]; [done|].
      cbn [map]. apply (default_last_cons _ _ (timestamp d0)).
  - destruct r as [s1| |]; simpl; try (split; [apply Hnil|done]).
    destruct (Hkeep s1 eq_refl) as [Hnow1 Hok1].
    destruct (IH s1 Hok1) as [Hord Hlast].
    destruct (run_loop _ _ _ _ _ _ fuel s1) as [ds r'] eqn:Hloop. simpl in *.
    rewrite Hnow1 in Hord, Hlast. by split.
Qed.

End Ordering.


Lemma full_lookahead_looks_ahead : looks_ahead Examples.full_lookahead.
Proof. by intros tr _. Qed.

Lemma future_alarm_handlers_ahead :
  handlers_schedule_ahead Examples.future_alarm_handlers.
Proof.
  intros h ev s s' now Hcall Hnow.
  unfold Examples.future_alarm_handlers in Hcall. rewrite Hnow in Hcall.
  injection Hcall as <-.
  exists [Examples.alarm_event (now + 10) 0 false]. repeat split.
  constructor; [|done]. exists (now + 10). split; [done|]. simpl. lia.
Qed.

Lemma rearming_fire_ahead : fire_schedules_ahead Examples.rearming_fire.
Proof.
  intros ev s ev' s' now Hcall Hnow.
  unfold Examples.rearming_fire in Hcall. rewrite Hnow in Hcall.
  assert (Hself : registers_from now s s).
  { exists []. by repeat split. }
  destruct (alarm ev) as [a0|] eqn:Ha.
  - injection Hcall as <- <-. split; [done|]. intros a _ _.
    exists (now + Z.max 0 (period a0)). split; [done|]. simpl. lia.
  - injection Hcall as <- <-. split; [done|]. intros a Ha'. congruence.
Qed.

Lemma busy_schedule_ok :
  schedule_ok (current_time Examples.busy) Examples.busy.
Proof.
  unfold schedule_ok. simpl. repeat split.
  - repeat constructor.
  - repeat constructor. by exists 2.
  - repeat constructor. exists 1, 2. repeat split. lia.
  - repeat constructor; [by exists 1|by exists 2].
Qed.



(** The reader's lookahead is needed as well.  With a hundred alarms
    for the time 50 in the queue and one event, for the time 20, in the
    trace, a reader that does not show its next event lets the loop
    dispatch an alarm first, and the event of the time 20 after it. *)
Lemma run_dispatch_needs_lookahead :
  let log := fst (run_loop ascii_int Examples.no_lookahead Examples.idle_handlers
                    Examples.open_filters Examples.disarming_fire
                    Examples.show_nothing 250 Examples.crowded) in
  pq_size (event_queue Examples.crowded) = 100 /\
  schedule_ok (current_time Examples.crowded) Examples.crowded /\
  handlers_schedule_ahead Examples.idle_handlers /\
  fire_schedules_ahead Examples.disarming_fire /\
  take 2 log = [Examples.alarm_event 50 0 false; Examples.trace_event 20] /\
  ~ dispatch_ordered (current_time Examples.crowded) log.
Proof.
  intros log.
  assert (Hlog : exists rest,
            log = Examples.alarm_event 50 0 false :: Examples.trace_event 20 :: rest).
  { eexists. vm_compute. reflexivity. }
  destruct Hlog as [rest Hlog]. clearbody log. subst log.
  assert (Hq : event_queue Examples.crowded
               = replicate 100 (alarm_entry (Examples.alarm_event 50 0 false)))
    by (vm_compute; reflexivity).
  assert (Hself : forall (now : Z) (s : Simulator), registers_from now s s).
  { intros now s. exists []. by repeat split. }
  split; [reflexivity|]. split; [|split; [|split; [|split]]].
  - unfold schedule_ok. rewrite Hq. repeat split.
    + unfold pq_sorted. generalize 100%nat. intros n.
      induction n as [|n IH]; simpl; constructor; [done|].
      apply Forall_forall. by intros e [-> _]%elem_of_replicate.
    + apply Forall_forall. intros e [-> _]%elem_of_replicate.
      split; [done|]. by exists 50.
    + repeat constructor.
    + repeat constructor. by exists 20.
  - intros h ev s s' now [= <-] _. apply Hself.
  - intros ev s ev' s' now [= <- <-] _. split; [apply Hself|].
    intros a [= <-]. discriminate.
  - reflexivity.
  - intros (times & Hmap & Hsorted & _).
    destruct times as [|a [|b times]]; try discriminate.
    simpl in Hmap. injection Hmap as <- <- _.
    apply StronglySorted_cons in Hsorted as [Hle _].
    apply Forall_cons in Hle as [Hle _]. lia.
Qed.

(** * Further properties of the engine *)

(** ** Module registry: names *)

Lemma dict_get_None {V : Type} (name : string) (d : list (string * V)) :
  dict_get name d = None <-> name ∉ map fst d.
Proof.
  induction d as [|[k v] d IH]; simpl.
  - split; [intros _; apply not_elem_of_nil|done].
  - destruct (String.eqb_spec k name) as [->|Hne].
    + split; [done|]. intros H. exfalso. apply H. by left.
    + rewrite IH, not_elem_of_cons.
      split; [intros H; split; [congruence|done]|by intros [_ H]].
Qed.

Lemma dict_get_app {V : Type} (name : string) (d1 d2 : list (string * V)) :
  dict_get name (d1 ++ d2)
  = match dict_get name d1 with
    | Some v => Some v
    | None => dict_get name d2
    end.
Proof.
  induction d1 as [|[k v] d1 IH]; simpl; [done|].
  by destruct (String.eqb k name).
Qed.

Lemma dict_get_Some_NoDup {V : Type} (name : string) (v : V) (d : list (string * V)) :
  NoDup (map fst d) -> dict_get name d = Some v <-> (name, v) ∈ d.
Proof.
  induction d as [|[k w] d IH]; simpl; intros Hnd.
  - split; [done|]. intros H. by apply elem_of_nil in H.
  - apply NoDup_cons in Hnd as [Hk Hnd]. rewrite elem_of_cons.
    destruct (String.eqb_spec k name) as [->|Hne].
    + split.
      * intros [= ->]. by left.
      * intros [[= ->]|Hin]; [done|]. exfalso. apply Hk.
        change name with (fst (name, v)). by apply (list_elem_of_fmap_2 fst).
    + rewrite (IH Hnd). split; [by right|]. intros [[= -> _]|Hin]; done.
Qed.

Lemma register_ok_inv (m : SimModule) (o : bool) (s s' : Simulator) :
  register (IsSimModule m) o s = Ok s' ->
  dict_get (get_name m) (sim_modules s) = None /\
  sim_modules s' = sim_modules s ++ [(get_name m, m)].
Proof.
  unfold register, has_module_instance.
  destruct (dict_get (get_name m) (sim_modules s)) eqn:E; [done|].
  intros [= <-]. split; [done|]. simpl. by apply dict_set_absent.
Qed.

Lemma register_fresh (m : SimModule) (o : bool) (s : Simulator) :
  dict_get (get_name m) (sim_modules s) = None ->
  exists s1,
    register (IsSimModule m) o s = Ok s1 /\
    sim_modules s1 = sim_modules s ++ [(get_name m, m)].
Proof.
  intros Hnone. unfold register, has_module_instance. rewrite Hnone.
  eexists. split; [reflexivity|]. simpl. by apply dict_set_absent.
Qed.

Lemma register_all_sim_modules (regs : list (SimModule * bool)) (s s' : Simulator) :
  register_all regs s = Ok s' ->
  sim_modules s' = sim_modules s ++ map name_entry regs /\
  (NoDup (map fst (sim_modules s)) -> NoDup (map fst (sim_modules s'))).
Proof.
  revert s. induction regs as [|[m o] regs IH]; intros s.
  - intros [= <-]. simpl. by rewrite app_nil_r.
  - intros (s1 & E & H)%register_all_cons_ok.
    apply register_ok_inv in E as [Hnone Hs1].
    destruct (IH _ H) as [Hs' Hnd]. split.
    + rewrite Hs', Hs1, <- app_assoc. done.
    + intros Hnd0. apply Hnd. rewrite Hs1, map_app. simpl.
      apply NoDup_app. split; [done|]. split.
      * intros n Hn [->|Hin]%elem_of_cons; [|by apply elem_of_nil in Hin].
        by apply dict_get_None in Hnone.
      * apply NoDup_singleton.
Qed.

Lemma elem_of_name_entries (regs : list (SimModule * bool)) (n : string) (m : SimModule) :
  (n, m) ∈ map name_entry regs <-> (exists o, (m, o) ∈ regs) /\ get_name m = n.
Proof.
  change (map name_entry regs) with (name_entry <$> regs).
  rewrite list_elem_of_fmap. split.
  - intros ([m' o] & [= -> ->] & Hin). split; [by exists o|done].
  - intros [[o Hin] <-]. by exists (m, o).
Qed.

Lemma get_module_instance_registered (regs : list (SimModule * bool))
    (input : list string) (s : Simulator) (n : string) :
  register_all regs (init input) = Ok s ->
  forall m, get_module_instance n s = Ok m
            <-> (exists o, (m, o) ∈ regs) /\ get_name m = n.
Proof.
  intros H m. destruct (register_all_sim_modules _ _ _ H) as [Hmods Hnd].
  simpl in Hmods. specialize (Hnd (NoDup_nil_2)).
  rewrite <- (elem_of_name_entries regs n m), <- Hmods.
  rewrite <- (dict_get_Some_NoDup _ _ _ Hnd). unfold get_module_instance.
  destruct (dict_get n (sim_modules s)); split; congruence.
Qed.

(** X1.  After a list of registrations that succeeded on a fresh
    simulator, [get_module_instance] answers for a name exactly the
    module registered under it, and raises [KeyError] for a name that
    was never registered, where [has_module_instance] answers false. *)
Theorem get_module_instance_after (regs : list (SimModule * bool))
    (input : list string) (s : Simulator) (n : string) :
  register_all regs (init input) = Ok s ->
  (forall m, get_module_instance n s = Ok m
             <-> (exists o, (m, o) ∈ regs) /\ get_name m = n) /\
  ((forall m o, (m, o) ∈ regs -> get_name m ≠ n) ->
   get_module_instance n s = Raise (KeyError n) /\
   has_module_instance n s = false).
Proof.
  intros H. destruct (register_all_sim_modules _ _ _ H) as [Hmods Hnd].
  simpl in Hmods. specialize (Hnd (NoDup_nil_2)).
  assert (Hget : forall m, dict_get n (sim_modules s) = Some m
                           <-> (exists o, (m, o) ∈ regs) /\ get_name m = n).
  { intros m. rewrite (dict_get_Some_NoDup _ _ _ Hnd), Hmods.
    apply elem_of_name_entries. }
  split.
  - intros m. rewrite <- Hget. unfold get_module_instance.
    destruct (dict_get n (sim_modules s)); split; congruence.
  - intros Hfresh. unfold get_module_instance, has_module_instance.
    destruct (dict_get n (sim_modules s)) as [m|] eqn:E; [|done].
    destruct (proj1 (Hget m) eq_refl) as [[o Hin] Hn].
    by destruct (Hfresh m o Hin).
Qed.

Lemma get_module_instance_after_witness :
  exists s,
    register_all [(Examples.power_model, false); (Examples.radio_model, true)]
      (init []) = Ok s /\
    get_module_instance "radio" s = Ok Examples.radio_model.
Proof.
  eexists. split; [reflexivity|].
  apply (get_module_instance_after
           [(Examples.power_model, false); (Examples.radio_model, true)] []
           _ "radio" eq_refl).
  split; [|reflexivity]. exists true. right. left.
Defined.

Lemma register_all_app (l1 l2 : list (SimModule * bool)) (s : Simulator) :
  register_all (l1 ++ l2) s = register_all l1 s ≫= register_all l2.
Proof.
  revert s. induction l1 as [|[m o] l1 IH]; intros s; [done|].
  cbn [app register_all].
  destruct (register (IsSimModule m) o s) as [s1| |]; simpl; [|done|done].
  apply IH.
Qed.

Lemma register_all_ok (regs : list (SimModule * bool)) (s : Simulator) :
  NoDup (map fst (sim_modules s) ++ map reg_name regs) ->
  exists s', register_all regs s = Ok s'.
Proof.
  revert s. induction regs as [|[m o] regs IH]; intros s Hnd.
  - by exists s.
  - assert (Hnone : dict_get (get_name m) (sim_modules s) = None).
    { apply dict_get_None. intros Hin.
      apply NoDup_app in Hnd as (_ & Hdisj & _).
      apply (Hdisj _ Hin). by left. }
    destruct (register_fresh m o s Hnone) as (s1 & E & Hs1).
    cbn [register_all]. rewrite E. simpl. apply IH.
    rewrite Hs1, map_app, <- app_assoc. exact Hnd.
Qed.

(** X2.  A list of registrations on a fresh simulator succeeds exactly
    when the names are pairwise distinct; the first module whose name
    repeats an earlier one stops it with the duplicate-module exception
    for that name. *)
Theorem register_all_distinct_names (regs : list (SimModule * bool))
    (input : list string) :
  ((exists s, register_all regs (init input) = Ok s)
   <-> NoDup (map reg_name regs)) /\
  (forall pre m o post,
     regs = pre ++ (m, o) :: post ->
     NoDup (map reg_name pre) ->
     get_name m ∈ map reg_name pre ->
     register_all regs (init input)
     = Raise (Exception ("Module " +:+ get_name m +:+ " already exists"))).
Proof.
  split.
  - split.
    + intros [s H]. destruct (register_all_sim_modules _ _ _ H) as [Hmods Hnd].
      specialize (Hnd NoDup_nil_2). rewrite Hmods in Hnd. simpl in Hnd.
      rewrite map_map in Hnd. exact Hnd.
    + intros Hnd. by apply register_all_ok.
  - intros pre m o post -> Hnd Hin.
    destruct (register_all_ok pre (init input) Hnd) as [s1 H1].
    rewrite register_all_app, H1. simpl.
    destruct (register_all_sim_modules _ _ _ H1) as [Hmods _].
    simpl in Hmods. cbn [register_all]. unfold register, has_module_instance.
    destruct (dict_get (get_name m) (sim_modules s1)) eqn:E; [done|].
    apply dict_get_None in E. exfalso. apply E.
    rewrite Hmods, map_map. exact Hin.
Qed.

Lemma register_all_distinct_names_witness :
  register_all [(Examples.power_model, false); (Examples.radio_model, false);
                (Examples.power_model, true)] (init [])
  = Raise (Exception "Module power already exists").
Proof.
  apply (proj2 (register_all_distinct_names _ [])
           [(Examples.power_model, false); (Examples.radio_model, false)]
           Examples.power_model true [] eq_refl).
  - apply NoDup_cons. split.
    + intros [H|H]%elem_of_cons; [discriminate H|by apply elem_of_nil in H].
    + apply NoDup_singleton.
  - by left.
Defined.

(** ** Module registry: the two maps agree *)

Lemma foldl_seq_step_perm (l : list (SimModule * bool)) (dq : list SimModule) :
  foldl seq_step dq l ≡ₚ dq ++ map fst l.
Proof.
  revert dq. induction l as [|r l IH]; intros dq; simpl.
  - by rewrite app_nil_r.
  - rewrite IH. unfold seq_step. destruct (snd r); simpl.
    + by rewrite Permutation_middle.
    + by rewrite <- app_assoc.
Qed.

Lemma elem_of_filter_of_type (t : ModuleType) (regs : list (SimModule * bool))
    (m : SimModule) :
  m ∈ map fst (List.filter (of_type t) regs)
  <-> (exists o, (m, o) ∈ regs) /\ get_type m = t.
Proof.
  change (map fst ?l) with (fst <$> l). rewrite list_elem_of_fmap. split.
  - intros ([m' o] & -> & Hin). apply list_elem_of_In, filter_In in Hin as [Hin Ht].
    unfold of_type in Ht. apply bool_decide_eq_true in Ht. simpl in *.
    split; [|done]. exists o. by apply list_elem_of_In.
  - intros [[o Hin] Ht]. exists (m, o). split; [done|].
    apply list_elem_of_In, filter_In. split; [by apply list_elem_of_In|].
    unfold of_type. by apply bool_decide_eq_true.
Qed.

Lemma NoDup_reg_modules (regs : list (SimModule * bool)) :
  NoDup (map reg_name regs) -> NoDup (map fst regs).
Proof.
  induction regs as [|r regs IH]; simpl; [intros _; constructor|].
  intros [Hr Hnd]%NoDup_cons. apply NoDup_cons. split; [|by apply IH].
  intros Hin. apply Hr.
  change (map ?f ?k) with (f <$> k) in Hin |- *.
  apply list_elem_of_fmap in Hin as (r' & Heq & Hr').
  apply list_elem_of_fmap. exists r'. split; [|done].
  unfold reg_name. by rewrite Heq.
Qed.

Lemma NoDup_filter_map {A B : Type} (f : A -> B) (p : A -> bool) (l : list A) :
  NoDup (map f l) -> NoDup (map f (List.filter p l)).
Proof.
  induction l as [|x l IH]; simpl; [done|].
  intros [Hx Hl]%NoDup_cons. destruct (p x); simpl; [|by apply IH].
  apply NoDup_cons. split; [|by apply IH].
  intros Hin. apply Hx.
  change (map f ?k) with (f <$> k) in Hin |- *.
  apply list_elem_of_fmap in Hin as (y & -> & Hy).
  apply list_elem_of_fmap_2. apply list_elem_of_In.
  by apply list_elem_of_In, filter_In in Hy as [Hy _].
Qed.

(** X3.  After registrations that succeeded on a fresh simulator the
    type map and the name map agree: a sequence stored for a type is
    not empty, holds no module twice, and holds exactly the modules of
    that type that [get_module_instance] finds under their names; no
    enumeration member is a key. *)
Theorem registry_maps_agree (regs : list (SimModule * bool))
    (input : list string) (s : Simulator) :
  register_all regs (init input) = Ok s ->
  (forall v dq, module_type_map s !! KValue v = Some dq ->
     dq ≠ [] /\ NoDup dq /\
     forall m, m ∈ dq <->
               value (get_type m) = v /\
               get_module_instance (get_name m) s = Ok m) /\
  (forall m, get_module_instance (get_name m) s = Ok m ->
     exists dq, module_type_map s !! KValue (value (get_type m)) = Some dq /\
                m ∈ dq) /\
  (forall t, module_type_map s !! KMember t = None).
Proof.
  intros H.
  assert (Hnd : NoDup (map reg_name regs)).
  { destruct (register_all_sim_modules _ _ _ H) as [Hmods Hnd0].
    specialize (Hnd0 NoDup_nil_2). rewrite Hmods in Hnd0. simpl in Hnd0.
    by rewrite map_map in Hnd0. }
  assert (Hseq : forall t,
            module_type_map s !! KValue (value t)
            = match List.filter (of_type t) regs with
              | [] => None
              | l => Some (foldl seq_step [] l)
              end).
  { intros t. by rewrite (register_all_type_map _ _ _ t H). }
  assert (Hmem : forall t dq, module_type_map s !! KValue (value t) = Some dq ->
            dq ≡ₚ map fst (List.filter (of_type t) regs) /\ dq ≠ []).
  { intros t dq. rewrite Hseq.
    destruct (List.filter (of_type t) regs) as [|r l] eqn:E; [done|].
    intros [= <-]. split.
    - apply (foldl_seq_step_perm (r :: l) []).
    - apply (foldl_seq_step_nonempty (r :: l) []). by right. }
  assert (Hinst : forall m, get_module_instance (get_name m) s = Ok m
                            <-> exists o, (m, o) ∈ regs).
  { intros m.
    rewrite (get_module_instance_registered regs input s (get_name m) H m).
    split; [by intros [Ho _]|intros Ho; by split]. }
  split; [|split].
  - intros v dq Hdq. destruct (Hmem {| value := v |} dq Hdq) as [Hperm Hne].
    split; [done|]. split.
    + rewrite Hperm. apply NoDup_filter_map. by apply NoDup_reg_modules.
    + intros m. rewrite Hperm, elem_of_filter_of_type, Hinst. split.
      * intros [Hin Ht]. split; [by rewrite Ht|done].
      * intros [Hv Hin]. split; [done|].
        destruct (get_type m). simpl in Hv. by rewrite Hv.
  - intros m [o Hin]%Hinst.
    destruct (module_type_map s !! KValue (value (get_type m))) as [dq|] eqn:E.
    + exists dq. split; [done|].
      destruct (Hmem _ _ E) as [Hperm _]. rewrite Hperm.
      apply elem_of_filter_of_type. split; [by exists o|done].
    + rewrite Hseq in E.
      assert (Hf : m ∈ map fst (List.filter (of_type (get_type m)) regs)).
      { apply elem_of_filter_of_type. split; [by exists o|done]. }
      destruct (List.filter (of_type (get_type m)) regs); [|done].
      by apply elem_of_nil in Hf.
  - by apply (register_all_member_keys _ _ _ H).
Qed.

Lemma registry_maps_agree_witness :
  exists s dq,
    register_all [(Examples.power_model, false); (Examples.radio_model, true)]
      (init []) = Ok s /\
    module_type_map s !! KValue 1 = Some dq /\ dq ≠ [] /\ NoDup dq.
Proof.
  eexists. eexists. split; [reflexivity|]. split; [reflexivity|].
  destruct (proj1 (registry_maps_agree
              [(Examples.power_model, false); (Examples.radio_model, true)] []
              _ eq_refl) 1 _ eq_refl) as (Hne & Hnd & _).
  by split.
Defined.

(** X4.  For an enumeration whose members equal their values: a module
    registered with [override] is the provider of its type from then on,
    whatever was registered before; a module registered without it
    becomes the provider only when the type had none, and leaves a
    provider that was there in place. *)
Theorem register_provider (m : SimModule) (override : bool) (s s' : Simulator) :
  register (IsSimModule m) override s = Ok s' ->
  (override = true ->
   get_module_for_type true (get_type m) s' = Ok (Some m)) /\
  (override = false ->
   (get_module_for_type true (get_type m) s = Ok None ->
    get_module_for_type true (get_type m) s' = Ok (Some m)) /\
   (forall p, get_module_for_type true (get_type m) s = Ok (Some p) ->
    get_module_for_type true (get_type m) s' = Ok (Some p))) /\
  (forall t, t ≠ get_type m ->
   get_module_for_type true t s' = get_module_for_type true t s).
Proof.
  intros H.
  pose proof (fun t => register_type_map m override s s' t H) as Hmap.
  unfold get_module_for_type, member_key. split; [|split].
  - intros ->. rewrite (Hmap (get_type m)). unfold of_type. simpl.
    by rewrite bool_decide_eq_true_2.
  - intros ->. rewrite (Hmap (get_type m)). unfold of_type, seq_step. simpl.
    rewrite bool_decide_eq_true_2 by done.
    destruct (module_type_map s !! KValue (value (get_type m))) as [[|p dq]|];
      simpl; split; try done; by intros p' [= <-].
  - intros t Ht. rewrite (Hmap t). unfold of_type. simpl.
    by rewrite bool_decide_eq_false_2.
Qed.

Lemma register_provider_witness :
  register (IsSimModule Examples.power_model) false (init []) = Ok Examples.with_power /\
  register (IsSimModule Examples.radio_model) true Examples.with_power
    = Ok Examples.with_radio /\
  get_module_for_type true {| value := 1 |} Examples.with_power
    = Ok (Some Examples.power_model) /\
  get_module_for_type true {| value := 1 |} Examples.with_radio
    = Ok (Some Examples.radio_model).
Proof.
  split; [reflexivity|]. split; [reflexivity|]. split.
  - apply (proj1 (proj1 (proj2 (register_provider Examples.power_model false
                                  (init []) Examples.with_power eq_refl)) eq_refl)).
    reflexivity.
  - apply (proj1 (register_provider Examples.radio_model true
                    Examples.with_power Examples.with_radio eq_refl) eq_refl).
Defined.

(** ** Event bus: what the handlers see, and handlers that fail or subscribe *)

Lemma stamp_result (ev ev' : Event) (s : Simulator) :
  stamp ev s = Ok ev' ->
  timestamp ev' = current_time s /\ event_type ev' = event_type ev /\
  payload ev' = payload ev /\ alarm ev' = alarm ev /\
  stamp ev' s = Ok ev'.
Proof.
  unfold stamp. destruct (truthy (timestamp ev)) eqn:Ht.
  - case_bool_decide as Hne; [done|]. intros [= <-].
    rewrite Ht.
    rewrite bool_decide_eq_false_2 by (intros H; by apply H). done.
  - intros [= <-]. simpl. repeat split.
    destruct (truthy (current_time s)); [|done].
    by rewrite bool_decide_eq_false_2 by (intros H; by apply H).
Qed.

Lemma listeners_default_id (ty : EventType) (s : Simulator) (ls : Listeners) :
  event_listeners s !! ty = Some ls -> listeners_default ty s = s.
Proof. intros H. unfold listeners_default. by rewrite H. Qed.

Section BusEdges.

Variable handler_sem : HandlerId -> Event -> Simulator -> Result Simulator.
Variable filter_sem : FilterId -> Event -> bool.

(** X5.  The event that a successful [broadcast] hands to the handlers
    carries the current time as its timestamp and is otherwise the event
    given; broadcasting it again while the time stands passes the
    timestamp check and leaves it as it is. *)
Theorem broadcast_event_is_now (fuel : nat) (ev ev' : Event) (s s' : Simulator)
    (calls : list HandlerId) :
  broadcast handler_sem filter_sem fuel ev s = Ok (s', ev', calls) ->
  timestamp ev' = current_time s /\ event_type ev' = event_type ev /\
  payload ev' = payload ev /\ alarm ev' = alarm ev /\
  stamp ev' s = Ok ev'.
Proof.
  unfold broadcast. destruct (stamp ev s) as [ev1| |] eqn:Hs; try done. simpl.
  destruct (fan_out _ _ _ _ _ _ _) as [[s1 c]| |]; try done. simpl.
  intros [= <- <- <-]. by apply stamp_result.
Qed.

Lemma fan_out_prefix (ev : Event) (ls : Listeners)
    (pre : list (option FilterId * HandlerId)) :
  forall (i fuel : nat) (s : Simulator) (calls : list HandlerId),
    event_listeners s !! event_type ev = Some ls ->
    (forall j p, pre !! j = Some p -> seq_items ls !! (i + j)%nat = Some p) ->
    (forall f h, (f, h) ∈ pre -> handler_quiet handler_sem (event_type ev) h) ->
    exists s',
      event_listeners s' !! event_type ev = Some ls /\
      fan_out handler_sem filter_sem (length pre + fuel) ev i s calls
      = fan_out handler_sem filter_sem fuel ev (i + length pre) s'
          (calls ++ matching filter_sem ev pre).
Proof.
  induction pre as [|[f h] pre IH]; intros i fuel s calls Hls Hat Hq.
  - exists s. split; [done|]. simpl. by rewrite Nat.add_0_r, app_nil_r.
  - pose proof (Hat 0%nat (f, h) eq_refl) as Hi. rewrite Nat.add_0_r in Hi.
    assert (Hat' : forall j p, pre !! j = Some p ->
                               seq_items ls !! (S i + j)%nat = Some p).
    { intros j p Hj. replace (S i + j)%nat with (i + S j)%nat by lia.
      by apply (Hat (S j)). }
    assert (Hq' : forall f' h', (f', h') ∈ pre ->
                                handler_quiet handler_sem (event_type ev) h').
    { intros f' h' Hin. apply (Hq f' h'). by right. }
    cbn [length Nat.add fan_out]. rewrite Hls, Hi.
    rewrite Nat.add_succ_r. unfold matching. cbn [List.filter fst].
    destruct (passes filter_sem f ev).
    + destruct (Hq f h ltac:(left) ev s) as (s1 & Hh & Hsame).
      rewrite Hh. simpl. rewrite Hls in Hsame.
      destruct (IH (S i) fuel s1 (calls ++ [h]) Hsame Hat' Hq') as (s' & Hl & Hf).
      exists s'. split; [done|].
      unfold matching in Hf. rewrite <- app_assoc in Hf. simpl in Hf.
      destruct (seq_kind ls); [exact Hf|].
      unfold listeners_of. rewrite Hsame.
      by rewrite bool_decide_eq_true_2.
    + destruct (IH (S i) fuel s calls Hls Hat' Hq') as (s' & Hl & Hf).
      exists s'. by split.
Qed.

(** X6.  An exception of a handler leaves [broadcast]: when the handlers
    subscribed before it return normally and it raises, [broadcast]
    raises the same exception and the handlers subscribed after it are
    not invoked. *)
Theorem broadcast_handler_raises (fuel : nat) (ev ev' : Event) (s : Simulator)
    (pre post : list (option FilterId * HandlerId)) (f : option FilterId)
    (h : HandlerId) (e : PyError) :
  stamp ev s = Ok ev' ->
  listeners_of (event_type ev) s = pre ++ (f, h) :: post ->
  (forall f' h', (f', h') ∈ pre -> handler_quiet handler_sem (event_type ev) h') ->
  passes filter_sem f ev' = true ->
  (forall s1, handler_sem h ev' s1 = Raise e) ->
  (length pre < fuel)%nat ->
  broadcast handler_sem filter_sem fuel ev s = Raise e.
Proof.
  intros Hstamp Hl Hq Hp Hraise Hfuel.
  pose proof (stamp_event_type _ _ _ Hstamp) as Hty.
  destruct (listeners_default_lookup (event_type ev) s) as (ls & Hls & Hitems).
  rewrite <- Hty in Hls, Hq. rewrite Hl in Hitems.
  unfold broadcast. rewrite Hstamp. simpl.
  replace fuel with (length pre + S (fuel - length pre - 1))%nat by lia.
  destruct (fan_out_prefix ev' ls pre 0 (S (fuel - length pre - 1))
              (listeners_default (event_type ev') s) [] Hls) as (s1 & Hls1 & ->).
  { intros j p Hj. rewrite Hitems. simpl. by apply lookup_app_l_Some. }
  { exact Hq. }
  cbn [fan_out Nat.add]. rewrite Hls1, Hitems.
  rewrite list_lookup_middle by done.
  by rewrite Hp, Hraise.
Qed.

(** X7.  A handler that subscribes another handler to the type of the
    event it handles, when the sequence of that type was created by
    [subscribe]: the new handler is invoked in the same broadcast, after
    the handlers that were subscribed already. *)
Theorem broadcast_list_grows (fuel : nat) (ev ev' : Event) (s : Simulator)
    (f : option FilterId) (h h2 : HandlerId) :
  event_listeners s !! event_type ev = None ->
  stamp ev s = Ok ev' ->
  passes filter_sem f ev' = true ->
  (forall s1, handler_sem h ev' s1 = Ok (subscribe (event_type ev) h2 None s1)) ->
  handler_quiet handler_sem (event_type ev) h2 ->
  exists s',
    broadcast handler_sem filter_sem (S (S fuel)) ev
      (subscribe (event_type ev) h f s)
    = Ok (s', ev', [h; h2]).
Proof.
  intros Hnone Hstamp Hp Hh Hq2.
  pose proof (stamp_event_type _ _ _ Hstamp) as Hty.
  set (s0 := subscribe (event_type ev) h f s).
  assert (Hs0 : event_listeners s0 !! event_type ev
                = Some {| seq_kind := PyList; seq_items := [(f, h)] |}).
  { subst s0. unfold subscribe. cbn [event_listeners set_event_listeners].
    by rewrite Hnone, lookup_alter_eq, lookup_insert_eq. }
  assert (Hstamp0 : stamp ev s0 = Ok ev') by exact Hstamp.
  set (s1 := subscribe (event_type ev) h2 None s0).
  assert (Hs1 : event_listeners s1 !! event_type ev
                = Some {| seq_kind := PyList; seq_items := [(f, h); (None, h2)] |}).
  { subst s1. unfold subscribe at 1. cbn [event_listeners set_event_listeners].
    by rewrite Hs0, lookup_alter_eq, Hs0. }
  pose proof (Hh s0) as Hh0. fold s1 in Hh0.
  destruct (Hq2 ev' s1) as (s2 & Hh2 & Hsame). rewrite Hs1 in Hsame.
  clearbody s1. clearbody s0.
  exists s2. unfold broadcast. rewrite Hstamp0. simpl.
  rewrite Hty, (listeners_default_id _ _ _ Hs0).
  cbn [fan_out]. rewrite ?Hty, Hs0. simpl. rewrite Hp, Hh0. simpl.
  rewrite Hs1. simpl. rewrite Hh2. simpl.
  destruct fuel; simpl; by rewrite ?Hty, Hsame.
Qed.

(** X8.  The same handler when the sequence of the type was created by
    an earlier broadcast that found no subscription (a deque, to which
    [subscribe] then appended): the broadcast ends with [RuntimeError]
    as soon as the handler has subscribed the other one. *)
Theorem broadcast_deque_mutated (fuel0 fuel : nat) (ev0 ev0' ev ev' : Event)
    (s sb : Simulator) (calls0 : list HandlerId) (f : option FilterId)
    (h h2 : HandlerId) :
  event_listeners s !! event_type ev = None ->
  event_type ev0 = event_type ev ->
  broadcast handler_sem filter_sem fuel0 ev0 s = Ok (sb, ev0', calls0) ->
  stamp ev sb = Ok ev' ->
  passes filter_sem f ev' = true ->
  (forall s1, handler_sem h ev' s1 = Ok (subscribe (event_type ev) h2 None s1)) ->
  calls0 = [] /\
  broadcast handler_sem filter_sem (S fuel) ev
    (subscribe (event_type ev) h f sb)
  = Raise (RuntimeError "deque mutated during iteration").
Proof.
  intros Hnone Hty0 Hb0 Hstamp Hp Hh.
  pose proof (stamp_event_type _ _ _ Hstamp) as Hty.
  assert (Hsb : sb = listeners_default (event_type ev) s /\ calls0 = []).
  { unfold broadcast in Hb0.
    destruct (stamp ev0 s) as [ev1| |] eqn:Hs0; try done. simpl in Hb0.
    pose proof (stamp_event_type _ _ _ Hs0) as Hty1.
    rewrite fan_out_nothing in Hb0.
    - simpl in Hb0. injection Hb0 as <- _ <-. by rewrite Hty1, Hty0.
    - destruct (listeners_default_lookup (event_type ev1) s) as (ls & Hls & Hi).
      unfold listeners_of at 1. rewrite Hls, Hi.
      unfold listeners_of. rewrite Hty1, Hty0, Hnone. simpl. lia. }
  destruct Hsb as [-> ->]. split; [done|].
  set (s0 := subscribe (event_type ev) h f (listeners_default (event_type ev) s)).
  assert (Hs0 : event_listeners s0 !! event_type ev
                = Some {| seq_kind := PyDeque; seq_items := [(f, h)] |}).
  { subst s0. unfold subscribe, listeners_default. rewrite Hnone.
    cbn [event_listeners set_event_listeners].
    by rewrite lookup_insert_eq, lookup_alter_eq, lookup_insert_eq. }
  assert (Hstamp0 : stamp ev s0 = Ok ev') by exact Hstamp.
  set (s1 := subscribe (event_type ev) h2 None s0).
  assert (Hs1 : length (listeners_of (event_type ev) s1) = 2%nat).
  { subst s1. rewrite subscribe_listeners. unfold listeners_of. by rewrite Hs0. }
  pose proof (Hh s0) as Hh0. fold s1 in Hh0.
  clearbody s1. clearbody s0.
  unfold broadcast. rewrite Hstamp0. simpl.
  rewrite Hty, (listeners_default_id _ _ _ Hs0).
  cbn [fan_out]. rewrite ?Hty, Hs0. simpl. rewrite Hp, Hh0. simpl.
  rewrite Hs1. by rewrite bool_decide_eq_false_2.
Qed.

End BusEdges.

Lemma broadcast_event_is_now_witness :
  broadcast Examples.idle_handlers Examples.open_filters 0
    Examples.unstamped_event (Examples.at_time 5)
  = Ok (listeners_default (DOMAIN 0) (Examples.at_time 5),
        Examples.trace_event 5, []) /\
  timestamp (Examples.trace_event 5) = current_time (Examples.at_time 5).
Proof.
  split; [reflexivity|].
  apply (broadcast_event_is_now Examples.idle_handlers Examples.open_filters 0
           Examples.unstamped_event (Examples.trace_event 5)
           (Examples.at_time 5) _ [] eq_refl).
Defined.

Lemma broadcast_handler_raises_witness :
  broadcast Examples.failing_handlers Examples.open_filters 5
    (Examples.trace_event 5)
    (subscribe (DOMAIN 0) 2%nat None
       (subscribe (DOMAIN 0) 1%nat None
          (subscribe (DOMAIN 0) 0%nat None (Examples.at_time 5))))
  = Raise (Exception "handler failed").
Proof.
  apply (broadcast_handler_raises Examples.failing_handlers Examples.open_filters
           5 (Examples.trace_event 5) (Examples.trace_event 5) _
           [(None, 0%nat)] [(None, 2%nat)] None 1%nat).
  - reflexivity.
  - rewrite !subscribe_listeners. reflexivity.
  - intros f' h' Hin. apply list_elem_of_singleton in Hin.
    injection Hin as -> ->. intros ev s. exists s. by split.
  - reflexivity.
  - reflexivity.
  - simpl. lia.
Defined.

Lemma broadcast_list_grows_witness :
  exists s',
    broadcast Examples.subscribing_handlers Examples.open_filters 2
      (Examples.trace_event 5)
      (subscribe (DOMAIN 0) 0%nat None (Examples.at_time 5))
    = Ok (s', Examples.trace_event 5, [0%nat; 1%nat]).
Proof.
  apply (broadcast_list_grows Examples.subscribing_handlers Examples.open_filters
           0 (Examples.trace_event 5) (Examples.trace_event 5)
           (Examples.at_time 5) None 0%nat 1%nat).
  - reflexivity.
  - reflexivity.
  - reflexivity.
  - reflexivity.
  - intros ev s. exists s. by split.
Defined.

Lemma broadcast_deque_mutated_witness :
  broadcast Examples.subscribing_handlers Examples.open_filters 1
    (Examples.trace_event 5)
    (subscribe (DOMAIN 0) 0%nat None
       (listeners_default (DOMAIN 0) (Examples.at_time 5)))
  = Raise (RuntimeError "deque mutated during iteration").
Proof.
  apply (broadcast_deque_mutated Examples.subscribing_handlers
           Examples.open_filters 0 0
           (Examples.trace_event 5) (Examples.trace_event 5)
           (Examples.trace_event 5) (Examples.trace_event 5)
           (Examples.at_time 5) (listeners_default (DOMAIN 0) (Examples.at_time 5))
           [] None 0%nat 1%nat).
  - reflexivity.
  - reflexivity.
  - reflexivity.
  - reflexivity.
  - reflexivity.
  - reflexivity.
Defined.

(** ** Debug controller: commands, exit and resumption *)

Lemma debug_command_cases (py_int : string -> option Z) (cmd : string)
    (args : list string) (s : Simulator) :
  debug_command py_int cmd args s = Raise (SystemExit 1) \/
  exists s', debug_command py_int cmd args s = Ok s' /\
             debug_frame_ok s s' /\ console_in s' = console_in s /\
             exists out, console_out s' = console_out s ++ out.
Proof.
  assert (Hsame : forall s0 : Simulator, exists out : list string,
            console_out s0 = console_out s0 ++ out).
  { intros s0. exists []. by rewrite app_nil_r. }
  assert (Hprint : forall (s0 : Simulator) (line : string), exists out,
            console_out (print line s0) = console_out s0 ++ out).
  { intros s0 line. by exists [line]. }
  unfold debug_command.
  repeat match goal with
         | |- context [if ?b then _ else _] => destruct b
         | |- context [match ?x with _ => _ end] => destruct x
         end;
    first [ by left
          | right; eexists; split; [reflexivity|];
            split; [by repeat split|]; split; [done|];
            first [exact (Hsame s) | exact (Hprint s _)] ].
Qed.

Lemma debug_loop_quit (py_int : string -> option Z) (command : string)
    (rest : list string) (s : Simulator) (cmd : string) (args : list string) :
  split_space command = cmd :: args ->
  cmd = "quit" \/ cmd = "exit" \/ cmd = "q" ->
  debug_loop py_int (command :: rest) s = Raise (SystemExit 1).
Proof.
  intros Hsplit Hcmd. destruct command as [|c command].
  - simpl in Hsplit. injection Hsplit as Hc Ha. subst cmd.
    destruct Hcmd as [H|[H|H]]; discriminate H.
  - cbn [debug_loop]. rewrite Hsplit.
    by destruct Hcmd as [-> | [-> | ->]].
Qed.

(** X9.  The commands [quit], [exit] and [q] end the process with exit
    status 1 whatever follows the command word on the line. *)
Theorem debug_quit_exits (py_int : string -> option Z) (command : string)
    (rest : list string) (s : Simulator) (cmd : string) (args : list string) :
  split_space command = cmd :: args ->
  cmd = "quit" \/ cmd = "exit" \/ cmd = "q" ->
  debug_loop py_int (command :: rest) s = Raise (SystemExit 1).
Proof.
  intros Hsplit Hcmd. destruct command as [|c command].
  - simpl in Hsplit. injection Hsplit as Hc Ha. subst cmd.
    destruct Hcmd as [H|[H|H]]; discriminate H.
  - cbn [debug_loop]. rewrite Hsplit.
    by destruct Hcmd as [-> | [-> | ->]].
Qed.

Lemma debug_quit_exits_witness :
  debug ascii_int (init ["quit now please"; EmptyString]) = Raise (SystemExit 1).
Proof.
  exact (debug_quit_exits ascii_int "quit now please" [EmptyString]
           (init ["quit now please"; EmptyString]) "quit" ["now"; "please"]
           eq_refl (or_introl eq_refl)).
Defined.

(** X10.  A line that is not empty and whose first word is no command is
    passed over without a message, and the controller prompts again; so
    a line of spaces does not resume the run, only the empty line
    does. *)
Theorem debug_unknown_ignored (py_int : string -> option Z)
    (command : string) (rest : list string)
    (s : Simulator) (cmd : string) (args : list string) :
  command ≠ EmptyString ->
  split_space command = cmd :: args ->
  cmd ≠ "quit" -> cmd ≠ "exit" -> cmd ≠ "q" ->
  cmd ≠ "interval" -> cmd ≠ "verbose" ->
  debug_loop py_int (command :: rest) s
  = debug_loop py_int rest (set_console_in rest (print prompt s)).
Proof.
  intros Hne Hsplit H1 H2 H3 H4 H5.
  destruct command as [|c command]; [done|].
  cbn [debug_loop]. rewrite Hsplit. unfold debug_command.
  destruct (String.eqb_spec cmd "quit"); [done|].
  destruct (String.eqb_spec cmd "exit"); [done|].
  destruct (String.eqb_spec cmd "q"); [done|].
  destruct (String.eqb_spec cmd "interval"); [done|].
  destruct (String.eqb_spec cmd "verbose"); [done|].
  reflexivity.
Qed.

Lemma debug_unknown_ignored_witness :
  debug ascii_int (init ["  "; EmptyString])
  = Ok (set_console_in [] (print prompt (print prompt (init [])))).
Proof.
  unfold debug. cbn [console_in init].
  rewrite (debug_unknown_ignored ascii_int "  " [EmptyString] _ EmptyString
             [EmptyString; EmptyString]);
    [reflexivity|discriminate|reflexivity|discriminate..].
Defined.

Lemma split_space_nonempty (s : string) : split_space s ≠ [].
Proof.
  destruct s as [|c s]; simpl; [done|].
  destruct (Ascii.eqb c " "); [done|]. by destruct (split_space s).
Qed.

(** X11.  The debug controller returns normally only by reading an empty
    line: the lines before it are not empty and the console is left at
    the line after it; all it may change besides the console are the
    echo flag and the debug interval, and what it wrote stays written.
    Input without an empty line ends in [EOFError], or in the exit of a
    quit command. *)
Theorem debug_returns_at_empty_line (py_int : string -> option Z)
    (lines : list string) (s : Simulator) :
  (forall s', debug_loop py_int lines s = Ok s' ->
     (exists pre, lines = pre ++ EmptyString :: console_in s' /\
                  Forall (fun l => l ≠ EmptyString) pre) /\
     debug_frame_ok s s' /\
     exists out, console_out s' = console_out s ++ out) /\
  (Forall (fun l => l ≠ EmptyString) lines ->
   debug_loop py_int lines s = Raise EOFError \/
   debug_loop py_int lines s = Raise (SystemExit 1)).
Proof.
  revert s. induction lines as [|command rest IH]; intros s.
  - split; [done|]. intros _. by left.
  - cbn [debug_loop]. destruct command as [|c command].
    + split.
      * intros s' [= <-]. split; [by exists []|].
        split; [by repeat split|]. by exists [prompt].
      * intros Hall. apply Forall_cons in Hall as [Hne _]. done.
    + pose proof (split_space_nonempty (String c command)) as Hsplit.
      destruct (split_space (String c command)) as [|cmd args]; [done|].
      destruct (debug_command_cases py_int cmd args
                  (set_console_in rest (print prompt s)))
        as [->|(s2 & -> & Hframe & Hin & [out Hout])]; simpl.
      { split; [done|]. intros _. by right. }
      destruct (IH s2) as [IHok IHraise]. split.
      * intros s' Hs'. destruct (IHok s' Hs') as ([pre [Hpre Hall]] & Hf & [out' Hout']).
        split; [|split].
        -- exists (String c command :: pre). split; [by rewrite Hpre|].
           by constructor.
        -- unfold debug_frame_ok in *. simpl in Hframe.
           destruct Hframe as (? & ? & ? & ? & ? & ? & ? & ?).
           destruct Hf as (? & ? & ? & ? & ? & ? & ? & ?).
           repeat split; congruence.
        -- exists ([prompt] ++ out ++ out').
           rewrite Hout', Hout. simpl. by rewrite <- !app_assoc.
      * intros Hall. apply Forall_cons in Hall as [_ Hall]. by apply IHraise.
Qed.

Lemma debug_returns_at_empty_line_witness :
  (debug_loop ascii_int ["verbose"; "interval 4"] (init []) = Raise EOFError \/
   debug_loop ascii_int ["verbose"; "interval 4"] (init []) = Raise (SystemExit 1)) /\
  (exists pre,
     ["verbose"; EmptyString; "interval 4"] = pre ++ [EmptyString; "interval 4"] /\
     Forall (fun l => l ≠ EmptyString) pre).
Proof.
  split.
  - apply (proj2 (debug_returns_at_empty_line ascii_int ["verbose"; "interval 4"] (init []))).
    repeat constructor; discriminate.
  - exact (proj1 (proj1 (debug_returns_at_empty_line ascii_int
                           ["verbose"; EmptyString; "interval 4"] (init []))
                    (set_console_in ["interval 4"]
                       (print prompt
                          (set_verbose true
                             (set_console_in [EmptyString; "interval 4"]
                                (print prompt (init []))))))
                    eq_refl)).
Defined.

(** ** Run loop: when it dispatches, and that it dispatches everything *)

Section Guard.

Variable py_int : string -> option Z.
Variable lookahead : TraceReader -> bool.
Variable handler_sem : HandlerId -> Event -> Simulator -> Result Simulator.
Variable filter_sem : FilterId -> Event -> bool.
Variable fire_sem : Event -> Simulator -> Result (Event * Simulator).
Variable show_event : Event -> string.

(** X12.  A pass of the run loop dispatches only the head of the queue,
    only when the queue holds at least 100 entries or the trace is
    exhausted, and never while the event that [peek_event] shows, the
    next of the trace, is earlier than that head. *)
Theorem run_iter_dispatch_guard (fuel : nat) (s : Simulator) (cur_event : Event)
    (r : Result Simulator) :
  run_iter py_int lookahead handler_sem filter_sem fire_sem show_event fuel s
  = (Some cur_event, r) ->
  pq_peek (event_queue s) = Some cur_event /\
  (EVENT_QUEUE_THRESHOLD <= pq_size (event_queue s) \/ trace_reader s = []) /\
  (forall trace_event, peek_event lookahead (trace_reader s) = Some trace_event ->
     exists x y, timestamp cur_event = Some x /\
                 timestamp trace_event = Some y /\ x <= y) /\
  r = dispatch py_int handler_sem filter_sem fire_sem show_event fuel cur_event
        (set_event_queue (pq_pop (event_queue s)) s).
Proof.
  unfold run_iter.
  assert (Hguard : (pq_size (event_queue s) <? EVENT_QUEUE_THRESHOLD)
                   && negb (end_of_trace (trace_reader s)) = false ->
            EVENT_QUEUE_THRESHOLD <= pq_size (event_queue s) \/ trace_reader s = []).
  { destruct (Z.ltb_spec (pq_size (event_queue s)) EVENT_QUEUE_THRESHOLD);
      [|by left]. destruct (trace_reader s); [by right|done]. }
  destruct ((pq_size (event_queue s) <? EVENT_QUEUE_THRESHOLD)
            && negb (end_of_trace (trace_reader s))); [done|].
  specialize (Hguard eq_refl).
  destruct (pq_peek (event_queue s)) as [cur|] eqn:Hpeek; [|done].
  destruct (peek_event lookahead (trace_reader s)) as [te|].
  - destruct (timestamp cur) as [x|] eqn:Hx; [|done].
    destruct (timestamp te) as [y|] eqn:Hy; [|done]. simpl.
    destruct (Z.ltb_spec y x); [done|].
    intros [= <- <-]. split; [done|]. split; [done|]. split; [|done].
    intros te' [= <-]. exists x, y. by rewrite Hx.
  - intros [= <- <-]. split; [done|]. split; [done|]. split; [|done].
    by intros te' [=].
Qed.

End Guard.

Lemma run_iter_dispatch_guard_witness :
  pq_peek (event_queue Examples.alarm_due) = Some (Examples.alarm_event 4 3 true).
Proof.
  assert (H : run_iter ascii_int Examples.full_lookahead
                Examples.idle_handlers Examples.open_filters
                Examples.advancing_fire Examples.show_nothing 0 Examples.alarm_due
              = (Some (Examples.alarm_event 4 3 true),
                 dispatch ascii_int Examples.idle_handlers Examples.open_filters
                   Examples.advancing_fire Examples.show_nothing 0
                   (Examples.alarm_event 4 3 true)
                   (set_event_queue [] Examples.alarm_due)))
    by reflexivity.
  exact (proj1 (run_iter_dispatch_guard _ _ _ _ _ _ _ _ _ _ H)).
Defined.

Lemma engine_untouched_refl (s : Simulator) : engine_untouched s s.
Proof. by repeat split. Qed.

Lemma engine_untouched_trans (s1 s2 s3 : Simulator) :
  engine_untouched s1 s2 -> engine_untouched s2 s3 -> engine_untouched s1 s3.
Proof.
  intros (Hq & Ht & Hc & Hd & Hl) (Hq' & Ht' & Hc' & Hd' & Hl').
  do 4 (split; [congruence|]). intros ty. by rewrite Hl', Hl.
Qed.

Lemma listeners_default_untouched (ty : EventType) (s : Simulator) :
  engine_untouched s (listeners_default ty s).
Proof.
  unfold listeners_default.
  destruct (event_listeners s !! ty) eqn:E; [apply engine_untouched_refl|].
  repeat split. intros ty'. unfold listeners_of.
  cbn [event_listeners set_event_listeners].
  destruct (decide (ty = ty')) as [<-|Hne].
  - by rewrite lookup_insert_eq, E.
  - by rewrite lookup_insert_ne.
Qed.

Lemma stamp_at_now (ev : Event) (s : Simulator) :
  timestamp ev = current_time s -> exists ev', stamp ev s = Ok ev'.
Proof.
  intros H. unfold stamp. destruct (truthy (timestamp ev)); [|by eexists].
  rewrite bool_decide_eq_false_2 by (intros Hne; by apply Hne). by eexists.
Qed.

Lemma pending_populate (s : Simulator) :
  pending (populate_event_queue_from_trace s) ≡ₚ pending s.
Proof.
  unfold pending, populate_event_queue_from_trace. simpl.
  rewrite (foldl_push_perm (fun x => (timestamp x, Priority.TRACE))).
  rewrite map_app, map_map. simpl. rewrite map_id, <- app_assoc.
  by rewrite take_drop.
Qed.

Lemma loop_measure_populate (s : Simulator) :
  trace_reader s ≠ [] ->
  (loop_measure (populate_event_queue_from_trace s) < loop_measure s)%nat.
Proof.
  intros Hne. unfold loop_measure, populate_event_queue_from_trace, get_events.
  cbn [event_queue trace_reader set_event_queue set_trace_reader].
  rewrite (Permutation_length
             (foldl_push_perm (fun x => (timestamp x, Priority.TRACE)) _ _)).
  rewrite length_app, length_map, length_take, length_drop.
  change (Z.to_nat EVENT_QUEUE_THRESHOLD) with 100%nat.
  destruct (trace_reader s); [done|]. cbn [length]. lia.
Qed.

Lemma alarm_first_populate (s : Simulator) (log : list Event) :
  alarm_first (populate_event_queue_from_trace s) log -> alarm_first s log.
Proof.
  intros H al x Hal Hx Hts. apply H; [| |done].
  - rewrite populate_queue. apply elem_of_app. by left.
  - destruct Hx as [Hx|Hx].
    + left. rewrite populate_queue. apply elem_of_app. by left.
    + rewrite <- (take_drop 100 (trace_reader s)) in Hx.
      apply elem_of_app in Hx as [Hx|Hx]; [left|by right].
      rewrite populate_queue. apply elem_of_app. right.
      by apply (list_elem_of_fmap_2 trace_entry).
Qed.

(** Popping the head: what was dispatched comes first in the log, and
    the head was no trace entry that an alarm had to precede. *)
Lemma alarm_first_pop (s s1 : Simulator) (k : Key) (cur : Event)
    (q : PriorityQueue) (log : list Event) :
  event_queue s = (k, cur) :: q ->
  pq_sorted (event_queue s) ->
  event_queue s1 = q ->
  trace_reader s1 = trace_reader s ->
  log ≡ₚ pending s1 ->
  alarm_first s1 log ->
  alarm_first s (cur :: log).
Proof.
  intros Hq Hs Hq1 Ht1 Hperm Haf al x Hal Hx Hts.
  rewrite Hq in Hal, Hx, Hs.
  pose proof (head_not_trace k cur q al x Hs Hal Hts) as Hk.
  assert (Hx1 : trace_entry x ∈ event_queue s1 \/ x ∈ trace_reader s1).
  { rewrite Hq1, Ht1. destruct Hx as [Hx|Hx]; [left|by right].
    apply elem_of_cons in Hx as [Hx|Hx]; [|done].
    unfold trace_entry in Hx. injection Hx as Hk' _. by destruct Hk. }
  apply elem_of_cons in Hal as [Hal|Hal].
  - assert (Hin : x ∈ log).
    { rewrite Hperm. unfold pending. apply elem_of_app.
      destruct Hx1 as [Hx1|Hx1]; [left|by right].
      change x with (snd (trace_entry x)).
      by apply (list_elem_of_fmap_2 snd). }
    apply list_elem_of_lookup_1 in Hin as [j Hj].
    exists 0%nat, (S j). unfold alarm_entry in Hal. injection Hal as _ <-.
    split; [done|]. split; [done|lia].
  - destruct (Haf al x) as (i & j & Hi & Hj & Hij); [by rewrite Hq1|done|done|].
    exists (S i), (S j). split; [done|]. split; [done|lia].
Qed.

Section Completeness.

Variable py_int : string -> option Z.
Variable lookahead : TraceReader -> bool.
Variable handler_sem : HandlerId -> Event -> Simulator -> Result Simulator.
Variable filter_sem : FilterId -> Event -> bool.
Variable fire_sem : Event -> Simulator -> Result (Event * Simulator).
Variable show_event : Event -> string.

Hypothesis handlers_ok : handlers_passive handler_sem.
Hypothesis fire_ok : fire_one_shot fire_sem.

Lemma fan_out_passive (ev : Event) (l rest : list (option FilterId * HandlerId)) :
  forall (i fuel : nat) (s : Simulator) (calls : list HandlerId),
    listeners_of (event_type ev) s = l ->
    drop i l = rest ->
    (length rest <= fuel)%nat ->
    exists s' calls',
      fan_out handler_sem filter_sem fuel ev i s calls = Ok (s', calls') /\
      engine_untouched s s'.
Proof.
  induction rest as [|[f h] rest IH]; intros i fuel s calls Hl Hdrop Hfuel.
  - exists s, calls. split; [|apply engine_untouched_refl].
    apply fan_out_nothing. rewrite Hl. by apply drop_nil_inv in Hdrop.
  - assert (Hi : l !! i = Some (f, h)).
    { rewrite <- (Nat.add_0_r i), <- lookup_drop, Hdrop. done. }
    assert (Hrest : drop (S i) l = rest).
    { by rewrite (drop_S _ _ _ Hi) in Hdrop; injection Hdrop. }
    destruct fuel as [|fuel]; [simpl in Hfuel; lia|].
    assert (Hfuel' : (length rest <= fuel)%nat) by (simpl in Hfuel; lia).
    unfold listeners_of in Hl. cbn [fan_out].
    destruct (event_listeners s !! event_type ev) as [ls|] eqn:Hls;
      [|by rewrite <- Hl in Hi].
    rewrite Hl, Hi.
    destruct (passes filter_sem f ev).
    + destruct (handlers_ok h ev s) as (s1 & Hh & Hun).
      rewrite Hh. simpl.
      assert (Hl1 : listeners_of (event_type ev) s1 = l).
      { destruct Hun as (_ & _ & _ & _ & Hlis). rewrite Hlis.
        unfold listeners_of. by rewrite Hls. }
      destruct (IH (S i) fuel s1 (calls ++ [h]) Hl1 Hrest Hfuel')
        as (s' & calls' & Hf & Hun').
      exists s', calls'. split; [|by apply (engine_untouched_trans s s1)].
      destruct (seq_kind ls); [done|].
      by rewrite Hl1, bool_decide_eq_true_2.
    + destruct (IH (S i) fuel s calls) as (s' & calls' & Hf & Hun');
        [by unfold listeners_of; rewrite Hls|done|done|].
      by exists s', calls'.
Qed.

Lemma execute_event_passive (fuel : nat) (ev : Event) (s : Simulator) :
  dispatchable ev ->
  timestamp ev = current_time s ->
  (length (listeners_of (event_type ev) s) <= fuel)%nat ->
  exists s' calls,
    execute_event py_int handler_sem filter_sem fire_sem fuel ev s = Ok (s', calls) /\
    engine_untouched s s'.
Proof.
  intros Hd Hts Hfuel. unfold execute_event, dispatchable in *.
  destruct (event_type ev) eqn:Hty; [done| |].
  - unfold fire. destruct Hd as [a0 ->].
    destruct (fire_ok ev s) as (ev' & s' & a & -> & Ha & Hrep & Hun).
    simpl. unfold is_repeating. rewrite Ha. simpl. rewrite Hrep.
    by exists s', [].
  - unfold broadcast. destruct (stamp_at_now ev s Hts) as [ev' Hstamp].
    rewrite Hstamp. simpl.
    pose proof (stamp_event_type _ _ _ Hstamp) as Hty'.
    pose proof (listeners_default_untouched (event_type ev') s) as Hun0.
    destruct (fan_out_passive ev' (listeners_of (event_type ev') s)
                (listeners_of (event_type ev') s) 0 fuel
                (listeners_default (event_type ev') s) [])
      as (s' & calls & -> & Hun).
    { by destruct Hun0 as (_ & _ & _ & _ & ->). }
    { done. }
    { by rewrite Hty', Hty. }
    simpl. exists s', calls. split; [done|].
    by apply (engine_untouched_trans s (listeners_default (event_type ev') s)).
Qed.

Lemma dispatch_passive (fuel : nat) (cur_event : Event) (s : Simulator) :
  debug_mode s = false ->
  dispatchable cur_event ->
  (length (listeners_of (event_type cur_event) s) <= fuel)%nat ->
  exists s',
    dispatch py_int handler_sem filter_sem fire_sem show_event fuel cur_event s = Ok s' /\
    event_queue s' = event_queue s /\ trace_reader s' = trace_reader s /\
    debug_mode s' = false /\
    current_time s' = timestamp cur_event /\
    forall ty, listeners_of ty s' = listeners_of ty s.
Proof.
  intros Hdbg Hd Hfuel. unfold dispatch.
  set (s1 := set_current_time (timestamp cur_event) s).
  set (s2 := if verbose s1 then print (show_event cur_event) s1 else s1).
  assert (H2 : engine_untouched s1 s2).
  { subst s2. destruct (verbose s1); by repeat split. }
  assert (Hdbg2 : debug_mode s2 = false).
  { destruct H2 as (_ & _ & _ & -> & _). exact Hdbg. }
  rewrite Hdbg2. simpl.
  destruct (execute_event_passive fuel cur_event s2 Hd) as (s' & calls & -> & Hun).
  { by destruct H2 as (_ & _ & -> & _). }
  { by destruct H2 as (_ & _ & _ & _ & ->). }
  simpl. exists s'. split; [done|].
  destruct (engine_untouched_trans _ _ _ H2 Hun) as (-> & -> & -> & -> & Hl).
  by repeat split.
Qed.

(** The loop, for the events that are pending, all with a timestamp. *)
Lemma run_loop_passive (bound : nat) (fuel : nat) :
  forall s : Simulator,
    debug_mode s = false ->
    Forall (fun ev => is_Some (timestamp ev) /\ dispatchable ev) (pending s) ->
    (forall ty, (length (listeners_of ty s) <= bound)%nat) ->
    (loop_measure s + bound < fuel)%nat ->
    exists log s',
      run_loop py_int lookahead handler_sem filter_sem fire_sem show_event fuel s
      = (log, Ok s') /\
      log ≡ₚ pending s /\ event_queue s' = [] /\ trace_reader s' = [] /\
      (pq_sorted (event_queue s) -> alarm_first s log).
Proof.
  induction fuel as [|fuel IH]; intros s Hdbg Hall Hbound Hfuel; [lia|].
  cbn [run_loop].
  destruct (end_of_trace (trace_reader s) && pq_empty (event_queue s)) eqn:Hend.
  { apply andb_prop in Hend as [Ht Hq].
    destruct (trace_reader s) eqn:Etr; [|done].
    destruct (event_queue s) eqn:Eq; [|done].
    exists [], s. unfold pending. rewrite Etr, Eq.
    split; [done|]. split; [done|]. split; [done|]. split; [done|].
    intros _ al x Hal. rewrite Eq in Hal. by apply elem_of_nil in Hal. }
  assert (Hrefill : trace_reader s ≠ [] ->
            exists log s',
              run_loop py_int lookahead handler_sem filter_sem fire_sem show_event fuel
                (populate_event_queue_from_trace s) = (log, Ok s') /\
              log ≡ₚ pending s /\ event_queue s' = [] /\ trace_reader s' = [] /\
              (pq_sorted (event_queue s) -> alarm_first s log)).
  { intros Hne.
    destruct (IH (populate_event_queue_from_trace s))
      as (log & s' & Hrun & Hp & Hq' & Ht' & Haf).
    - exact Hdbg.
    - by rewrite pending_populate.
    - exact Hbound.
    - pose proof (loop_measure_populate s Hne). lia.
    - exists log, s'. split; [done|].
      split; [by rewrite Hp, pending_populate|].
      split; [done|]. split; [done|].
      intros Hs. by apply alarm_first_populate, Haf, populate_sorted. }
  unfold run_iter.
  destruct ((pq_size (event_queue s) <? EVENT_QUEUE_THRESHOLD)
            && negb (end_of_trace (trace_reader s))) eqn:Hc.
  { destruct Hrefill as (log & s' & Hrun & Hrest).
    - apply andb_prop in Hc as [_ Hc]. by destruct (trace_reader s).
    - exists log, s'. by rewrite Hrun. }
  assert (Hgo : forall k cur q,
            event_queue s = (k, cur) :: q ->
            exists s1 log s',
              dispatch py_int handler_sem filter_sem fire_sem show_event fuel cur
                (set_event_queue q s) = Ok s1 /\
              run_loop py_int lookahead handler_sem filter_sem fire_sem show_event fuel s1
                = (log, Ok s') /\
              cur :: log ≡ₚ pending s /\ event_queue s' = [] /\ trace_reader s' = [] /\
              (pq_sorted (event_queue s) -> alarm_first s (cur :: log))).
  { intros k cur q Hq.
    assert (Hcur : is_Some (timestamp cur) /\ dispatchable cur).
    { unfold pending in Hall. rewrite Hq in Hall. simpl in Hall.
      by apply Forall_cons in Hall as [Hcur _]. }
    destruct (dispatch_passive fuel cur (set_event_queue q s))
      as (s1 & Hd & Hq1 & Ht1 & Hd1 & Hc1 & Hl1).
    - exact Hdbg.
    - apply Hcur.
    - etrans; [apply (Hbound (event_type cur))|]. unfold loop_measure in Hfuel. lia.
    - simpl in Hq1, Ht1.
      assert (Hp1 : pending s = cur :: pending s1).
      { unfold pending. by rewrite Hq, Hq1, Ht1. }
      destruct (IH s1) as (log & s' & Hrun & Hp & Hq' & Ht' & Haf).
      + exact Hd1.
      + rewrite Hp1 in Hall. by apply Forall_cons in Hall as [_ Hall].
      + intros ty. rewrite Hl1. apply Hbound.
      + unfold loop_measure in *. rewrite Hq1, Ht1. rewrite Hq in Hfuel.
        simpl in Hfuel. lia.
      + exists s1, log, s'. split; [exact Hd|]. split; [done|].
        split; [by rewrite Hp1, Hp|]. split; [done|]. split; [done|].
        intros Hs. apply (alarm_first_pop s s1 k cur q log Hq Hs Hq1 Ht1 Hp).
        apply Haf. rewrite Hq1. rewrite Hq in Hs.
        by apply StronglySorted_cons in Hs as [_ Hs]. }
  destruct (event_queue s) as [|[k cur] q] eqn:Hq.
  { exfalso. simpl in Hc, Hend. by destruct (trace_reader s). }
  assert (Hcur : is_Some (timestamp cur)).
  { unfold pending in Hall. rewrite Hq in Hall. simpl in Hall.
    by apply Forall_cons in Hall as [[Hcur _] _]. }
  destruct (Hgo k cur q eq_refl) as (s1 & log & s' & Hd & Hrun & Hgo').
  cbn [pq_peek pq_pop tail]. rewrite Hd.
  destruct (peek_event lookahead (trace_reader s)) as [te|] eqn:Hpk.
  - assert (Hin : te ∈ trace_reader s).
    { unfold peek_event in Hpk. destruct (lookahead (trace_reader s)); [|done].
      destruct (trace_reader s) as [|te' tr]; [done|].
      injection Hpk as ->. by left. }
    assert (Hte : is_Some (timestamp te)).
    { unfold pending in Hall. apply Forall_app in Hall as [_ Hall].
      by destruct (Forall_at _ _ _ Hall Hin). }
    destruct Hcur as [x Hx]. destruct Hte as [y Hy].
    rewrite Hx, Hy. simpl. destruct (y <? x).
    + destruct Hrefill as (log' & s'' & Hrun' & Hrest').
      * intros Hnil. rewrite Hnil in Hin. by apply elem_of_nil in Hin.
      * exists log', s''. by rewrite Hrun'.
    + rewrite Hrun. by exists (cur :: log), s'.
  - rewrite Hrun. by exists (cur :: log), s'.
Qed.

End Completeness.

Lemma idle_handlers_passive : handlers_passive Examples.idle_handlers.
Proof. intros h ev s. exists s. split; [done|]. by repeat split. Qed.

Lemma disarming_fire_one_shot : fire_one_shot Examples.disarming_fire.
Proof.
  intros ev s. eexists. exists s. eexists. split; [reflexivity|].
  split; [reflexivity|]. split; [reflexivity|]. by repeat split.
Qed.

(** A pass of the loop while an alarm and a trace entry of the same
    timestamp are queued: what it dispatches is the head of the queue,
    which is not that trace entry. *)
Lemma run_iter_alarm_first
    (py_int : string -> option Z) (lookahead : TraceReader -> bool)
    (handler_sem : HandlerId -> Event -> Simulator -> Result Simulator)
    (filter_sem : FilterId -> Event -> bool)
    (fire_sem : Event -> Simulator -> Result (Event * Simulator))
    (show_event : Event -> string) (fuel : nat) (s : Simulator)
    (cur al x : Event) (r : Result Simulator) :
  pq_sorted (event_queue s) ->
  alarm_entry al ∈ event_queue s ->
  trace_entry x ∈ event_queue s ->
  timestamp al = timestamp x ->
  run_iter py_int lookahead handler_sem filter_sem fire_sem show_event fuel s
  = (Some cur, r) ->
  exists k q,
    event_queue s = (k, cur) :: q /\
    k ≠ (timestamp x, Priority.TRACE) /\
    trace_entry x ∈ q /\
    r = dispatch py_int handler_sem filter_sem fire_sem show_event fuel cur
          (set_event_queue q s).
Proof.
  intros Hs Hal Hx Hts. unfold run_iter.
  destruct ((pq_size (event_queue s) <? EVENT_QUEUE_THRESHOLD)
            && negb (end_of_trace (trace_reader s))); [done|].
  destruct (event_queue s) as [|[k c] q] eqn:Hq; [done|].
  pose proof (head_not_trace k c q al x Hs Hal Hts) as Hk.
  assert (Hxq : trace_entry x ∈ q).
  { apply elem_of_cons in Hx as [Hx|Hx]; [|done].
    unfold trace_entry in Hx. injection Hx as Hk' _. by destruct Hk. }
  cbn [pq_peek pq_pop tail].
  assert (Hgo : (Some c,
                 dispatch py_int handler_sem filter_sem fire_sem show_event fuel c
                   (set_event_queue q s)) = (Some cur, r) ->
            exists k0 q0,
              (k, c) :: q = (k0, cur) :: q0 /\
              k0 ≠ (timestamp x, Priority.TRACE) /\
              trace_entry x ∈ q0 /\
              r = dispatch py_int handler_sem filter_sem fire_sem show_event fuel cur
                    (set_event_queue q0 s)).
  { intros [= <- <-]. by exists k, q. }
  destruct (peek_event lookahead (trace_reader s)) as [te|]; [|exact Hgo].
  destruct (py_gt (timestamp c) (timestamp te)) as [[|]| |]; try done.
Qed.

(** C9.  The priority class of alarms, 5, is below that of trace events,
    10, so that of two keys with the same timestamp the alarm's is the
    smaller.  [register_alarm] pushes an alarm under its timestamp and
    the class ALARM, the refill pushes a trace event under its timestamp
    and the class TRACE: after both, in either order, on a sorted queue,
    the queue is sorted, holds both entries, and the alarm stands before
    a trace event of the same timestamp, so [pop] returns it first.  A
    pass of the run loop never dispatches a trace entry while an alarm
    of its timestamp is queued: it dispatches the head, which is another
    entry.  And with callbacks that leave the engine alone, the run
    dispatches every alarm queued before every trace event of the same
    timestamp, queued or still in the trace. *)
Theorem alarm_dispatched_before_trace
    (py_int : string -> option Z) (lookahead : TraceReader -> bool)
    (handler_sem : HandlerId -> Event -> Simulator -> Result Simulator)
    (filter_sem : FilterId -> Event -> bool)
    (fire_sem : Event -> Simulator -> Result (Event * Simulator))
    (show_event : Event -> string) :
  (Priority.ALARM = 5 /\ Priority.TRACE = 10 /\
   forall ts : option Z,
     key_leb (ts, Priority.ALARM) (ts, Priority.TRACE) = true /\
     key_leb (ts, Priority.TRACE) (ts, Priority.ALARM) = false) /\
  (forall (al x : Event) (s s' : Simulator),
     pq_sorted (event_queue s) ->
     x ∈ take 100 (trace_reader s) ->
     timestamp al = timestamp x ->
     s' = populate_event_queue_from_trace (register_alarm al s) \/
     s' = register_alarm al (populate_event_queue_from_trace s) ->
     pq_sorted (event_queue s') /\
     alarm_entry al ∈ event_queue s' /\
     trace_entry x ∈ event_queue s' /\
     forall i j,
       event_queue s' !! i = Some (alarm_entry al) ->
       event_queue s' !! j = Some (trace_entry x) ->
       (i < j)%nat /\
       pq_drain (event_queue s') !! i = Some al /\
       pq_drain (event_queue s') !! j = Some x) /\
  (forall (fuel : nat) (s : Simulator) (cur al x : Event) (r : Result Simulator),
     pq_sorted (event_queue s) ->
     alarm_entry al ∈ event_queue s ->
     trace_entry x ∈ event_queue s ->
     timestamp al = timestamp x ->
     run_iter py_int lookahead handler_sem filter_sem fire_sem show_event fuel s
     = (Some cur, r) ->
     exists k q,
       event_queue s = (k, cur) :: q /\
       k ≠ (timestamp x, Priority.TRACE) /\
       trace_entry x ∈ q /\
       r = dispatch py_int handler_sem filter_sem fire_sem show_event fuel cur
             (set_event_queue q s)) /\
  (handlers_passive handler_sem ->
   fire_one_shot fire_sem ->
   forall (bound fuel : nat) (s : Simulator),
     debug_mode s = false ->
     pq_sorted (event_queue s) ->
     Forall (fun ev => is_Some (timestamp ev) /\ dispatchable ev) (pending s) ->
     (forall ty, (length (listeners_of ty s) <= bound)%nat) ->
     (loop_measure s + bound < fuel)%nat ->
     exists log s',
       run_loop py_int lookahead handler_sem filter_sem fire_sem show_event fuel s
       = (log, Ok s') /\
       alarm_first s log).
Proof.
  split; [|split; [|split]].
  - split; [done|]. split; [done|]. intros ts.
    split; [apply key_leb_alarm_trace|apply key_leb_trace_alarm].
  - intros al x s s' Hs Hx Hts Hs'.
    assert (Hsorted : pq_sorted (event_queue s')).
    { destruct Hs' as [-> | ->].
      - by apply populate_sorted, register_alarm_sorted.
      - by apply register_alarm_sorted, populate_sorted. }
    assert (Hal : alarm_entry al ∈ event_queue s').
    { destruct Hs' as [-> | ->].
      - rewrite populate_queue. apply elem_of_app. left.
        rewrite register_alarm_queue. by left.
      - rewrite register_alarm_queue. by left. }
    assert (Hxin : trace_entry x ∈ event_queue s').
    { destruct Hs' as [-> | ->].
      - rewrite populate_queue. apply elem_of_app. right.
        by apply (list_elem_of_fmap_2 trace_entry).
      - rewrite register_alarm_queue. right.
        rewrite populate_queue. apply elem_of_app. right.
        by apply (list_elem_of_fmap_2 trace_entry). }
    split; [done|]. split; [done|]. split; [done|].
    intros i j Hi Hj. unfold alarm_entry in Hi. unfold trace_entry in Hj.
    rewrite Hts in Hi.
    exact (pq_sorted_alarm_before_trace _ _ _ _ _ _ Hsorted Hi Hj).
  - intros fuel s cur al x r. apply run_iter_alarm_first.
  - intros Hh Hf bound fuel s Hdbg Hs Hall Hbound Hfuel.
    destruct (run_loop_passive py_int lookahead handler_sem filter_sem fire_sem
                show_event Hh Hf bound fuel s Hdbg Hall Hbound Hfuel)
      as (log & s' & Hrun & _ & _ & _ & Haf).
    exists log, s'. split; [done|]. by apply Haf.
Qed.

Lemma alarm_dispatched_before_trace_witness :
  exists log s',
    run_loop ascii_int Examples.no_lookahead Examples.idle_handlers
      Examples.open_filters Examples.disarming_fire Examples.show_nothing 6
      Examples.alarm_after_refill = (log, Ok s') /\
    alarm_first Examples.alarm_after_refill log /\
    log = [Examples.alarm_event 7 0 false; Examples.trace_event 7;
           Examples.trace_event 7; Examples.trace_event 9].
Proof.
  destruct (proj2 (proj2 (proj2 (alarm_dispatched_before_trace
              ascii_int Examples.no_lookahead Examples.idle_handlers
              Examples.open_filters Examples.disarming_fire
              Examples.show_nothing)))
              idle_handlers_passive disarming_fire_one_shot
              0%nat 6%nat Examples.alarm_after_refill)
    as (log & s' & Hrun & Hfirst).
  - reflexivity.
  - unfold pq_sorted. vm_compute. repeat constructor.
  - unfold pending. vm_compute. repeat constructor; by eexists.
  - intros ty. vm_compute. lia.
  - vm_compute. lia.
  - exists log, s'. split; [exact Hrun|]. split; [exact Hfirst|].
    assert (Hlog : fst (run_loop ascii_int Examples.no_lookahead
                          Examples.idle_handlers Examples.open_filters
                          Examples.disarming_fire Examples.show_nothing 6
                          Examples.alarm_after_refill)
                   = [Examples.alarm_event 7 0 false; Examples.trace_event 7;
                      Examples.trace_event 7; Examples.trace_event 9])
      by (vm_compute; reflexivity).
    rewrite Hrun in Hlog. exact Hlog.
Defined.

(** X13.  With handlers and fire actions that return normally and leave
    the engine alone, alarms that do not repeat and debug mode off, the
    run loop ends normally once given enough fuel, whatever the trace
    reader shows of its next event: it has dispatched every event of the
    queue and of the trace exactly once and leaves the queue and the
    trace empty.  When the reader shows its next event whenever the trace
    is not exhausted, the events were dispatched in non-decreasing order
    of timestamp. *)
Theorem run_loop_dispatches_all
    (py_int : string -> option Z) (lookahead : TraceReader -> bool)
    (handler_sem : HandlerId -> Event -> Simulator -> Result Simulator)
    (filter_sem : FilterId -> Event -> bool)
    (fire_sem : Event -> Simulator -> Result (Event * Simulator))
    (show_event : Event -> string) (bound fuel : nat) (s : Simulator) :
  handlers_passive handler_sem ->
  fire_one_shot fire_sem ->
  debug_mode s = false ->
  schedule_ok (current_time s) s ->
  Forall dispatchable (pending s) ->
  (forall ty, (length (listeners_of ty s) <= bound)%nat) ->
  (loop_measure s + bound < fuel)%nat ->
  exists log s',
    run_loop py_int lookahead handler_sem filter_sem fire_sem show_event fuel s
    = (log, Ok s') /\
    log ≡ₚ pending s /\
    (looks_ahead lookahead -> dispatch_ordered (current_time s) log) /\
    event_queue s' = [] /\ trace_reader s' = [].
Proof.
  intros Hh Hf Hdbg Hok Hall Hbound Hfuel.
  assert (Hts : Forall (fun ev => is_Some (timestamp ev) /\ dispatchable ev)
                  (pending s)).
  { destruct Hok as (_ & Hq & _ & Htr).
    apply Forall_forall. intros ev Hin. split; [|by eapply Forall_at].
    unfold pending in Hin. apply elem_of_app in Hin as [Hin|Hin].
    - change (map snd ?l) with (snd <$> l) in Hin.
      apply list_elem_of_fmap in Hin as (e & -> & He).
      destruct (Forall_at _ _ _ Hq He) as [_ (t & Ht & _)]. by exists t.
    - destruct (Forall_at _ _ _ Htr Hin) as (t & Ht & _). by exists t. }
  destruct (run_loop_passive py_int lookahead handler_sem filter_sem fire_sem
              show_event Hh Hf bound fuel s Hdbg Hts Hbound Hfuel)
    as (log & s' & Hrun & Hperm & Hq & Htr & _).
  exists log, s'. split; [done|]. split; [done|]. split; [|done].
  intros Hlook.
  assert (Hkeep : forall h ev s0 s1 now,
            handler_sem h ev s0 = Ok s1 -> current_time s0 = Some now ->
            schedule_ok (Some now) s0 ->
            current_time s1 = Some now /\ schedule_ok (Some now) s1).
  { intros h ev s0 s1 now Hcall Hnow Hs0.
    destruct (Hh h ev s0) as (s2 & Hcall' & Hq2 & Ht2 & Hc2 & _).
    rewrite Hcall in Hcall'. injection Hcall' as <-.
    split; [congruence|]. by apply (schedule_ok_frame _ s0). }
  assert (Hfire : forall ev s0 ev' s1 now,
            fire_sem ev s0 = Ok (ev', s1) -> current_time s0 = Some now ->
            schedule_ok (Some now) s0 ->
            current_time s1 = Some now /\ schedule_ok (Some now) s1 /\
            (forall a, alarm ev' = Some a -> repeating a = true ->
                       event_due (Some now) ev')).
  { intros ev s0 ev' s1 now Hcall Hnow Hs0.
    destruct (Hf ev s0) as (ev2 & s2 & a2 & Hcall' & Ha2 & Hrep & Hq2 & Ht2 & Hc2 & _).
    rewrite Hcall in Hcall'. injection Hcall' as <- <-.
    split; [congruence|]. split; [by apply (schedule_ok_frame _ s0)|].
    intros a Ha Hrep'. congruence. }
  pose proof (proj1 (run_loop_ordered py_int lookahead handler_sem filter_sem
                       fire_sem show_event Hlook Hkeep Hfire fuel s Hok)) as Hord.
  by rewrite Hrun in Hord.
Qed.

Lemma run_loop_dispatches_all_witness :
  exists log s',
    run_loop ascii_int Examples.full_lookahead Examples.idle_handlers
      Examples.open_filters Examples.disarming_fire
      Examples.show_nothing 7 Examples.busy = (log, Ok s') /\
    log ≡ₚ pending Examples.busy /\
    (looks_ahead Examples.full_lookahead ->
     dispatch_ordered (current_time Examples.busy) log) /\
    event_queue s' = [] /\ trace_reader s' = [].
Proof.
  apply (run_loop_dispatches_all ascii_int Examples.full_lookahead
           Examples.idle_handlers Examples.open_filters
           Examples.disarming_fire Examples.show_nothing 1 7 Examples.busy).
  - intros h ev s. exists s. split; [done|]. by repeat split.
  - intros ev s. eexists. exists s. eexists. split; [reflexivity|].
    split; [reflexivity|]. split; [reflexivity|]. by repeat split.
  - reflexivity.
  - exact busy_schedule_ok.
  - repeat constructor. by eexists.
  - intros ty. unfold Examples.busy. unfold listeners_of.
    cbn [event_listeners set_trace_reader].
    destruct (decide (ty = DOMAIN 0)) as [->|Hne].
    + vm_compute. lia.
    + rewrite subscribe_other by done. vm_compute. lia.
  - vm_compute. lia.
Defined.

(** X14.  In debug mode [run] enters the controller before the loop: a
    quit command on the first line ends the run with exit status 1
    before any event is dispatched, and the modules are not finished. *)
Theorem run_quit_at_start
    (py_int : string -> option Z) (lookahead : TraceReader -> bool)
    (handler_sem : HandlerId -> Event -> Simulator -> Result Simulator)
    (filter_sem : FilterId -> Event -> bool)
    (fire_sem : Event -> Simulator -> Result (Event * Simulator))
    (finish_sem : SimModule -> Simulator -> Result Simulator)
    (show_event : Event -> string) (fuel : nat) (trace : list Event)
    (s : Simulator) (command : string) (rest : list string)
    (cmd : string) (args : list string) :
  debug_mode s = true ->
  console_in s = command :: rest ->
  split_space command = cmd :: args ->
  cmd = "quit" \/ cmd = "exit" \/ cmd = "q" ->
  run py_int lookahead handler_sem filter_sem fire_sem finish_sem show_event fuel trace s
  = ([], Raise (SystemExit 1)).
Proof.
  intros Hdbg Hin Hsplit Hcmd. unfold run.
  change (debug_mode (set_trace_reader trace s)) with (debug_mode s).
  rewrite Hdbg. unfold debug.
  change (console_in (set_debug_interval_cnt 0 (set_trace_reader trace s)))
    with (console_in s).
  rewrite Hin.
  by rewrite (debug_loop_quit py_int command rest _ cmd args Hsplit Hcmd).
Qed.

Lemma run_quit_at_start_witness :
  run ascii_int Examples.full_lookahead Examples.idle_handlers
    Examples.open_filters Examples.advancing_fire
    Examples.no_finish Examples.show_nothing 5 [Examples.trace_event 1]
    Examples.debugging
  = ([], Raise (SystemExit 1)).
Proof.
  apply (run_quit_at_start _ _ _ _ _ _ _ 5 _ Examples.debugging "q" [] "q" []);
    [reflexivity|reflexivity|reflexivity|].
  right. by right.
Defined.

(** ** Run loop: the debug counter *)

Lemma console_untouched_trans (s1 s2 s3 : Simulator) :
  console_untouched s1 s2 -> console_untouched s2 s3 -> console_untouched s1 s3.
Proof. intros (? & ? & ?) (? & ? & ?). repeat split; congruence. Qed.

Section DebugCounter.

Variable py_int : string -> option Z.
Variable lookahead : TraceReader -> bool.
Variable handler_sem : HandlerId -> Event -> Simulator -> Result Simulator.
Variable filter_sem : FilterId -> Event -> bool.
Variable fire_sem : Event -> Simulator -> Result (Event * Simulator).
Variable show_event : Event -> string.

Hypothesis handlers_ok : handlers_passive handler_sem.
Hypothesis fire_ok : fire_one_shot fire_sem.
Hypothesis handlers_console : handlers_off_console handler_sem.
Hypothesis fire_console : fire_off_console fire_sem.

Lemma fan_out_console (ev : Event) (fuel : nat) :
  forall (i : nat) (s : Simulator) (calls : list HandlerId) s' calls',
    fan_out handler_sem filter_sem fuel ev i s calls = Ok (s', calls') ->
    console_untouched s s'.
Proof.
  induction fuel as [|fuel IH]; intros i s calls s' calls' H;
    cbn [fan_out] in H;
    (destruct (event_listeners s !! event_type ev) as [ls|];
       [|by injection H as <- <-]);
    (destruct (seq_items ls !! i) as [[f h]|];
       [|by injection H as <- <-]); [done|].
  destruct (passes filter_sem f ev); [|by eapply IH].
  destruct (handler_sem h ev s) as [s1| |] eqn:Hh; try done.
  simpl in H. apply handlers_console in Hh.
  apply (console_untouched_trans s s1); [done|].
  destruct (seq_kind ls); [by eapply IH|].
  case_bool_decide; [by eapply IH|done].
Qed.

Lemma execute_event_console (fuel : nat) (ev : Event) (s s' : Simulator)
    (calls : list HandlerId) :
  dispatchable ev ->
  execute_event py_int handler_sem filter_sem fire_sem fuel ev s = Ok (s', calls) ->
  console_untouched s s'.
Proof.
  unfold execute_event, dispatchable. intros Hd H.
  destruct (event_type ev); [done| |].
  - unfold fire in H. destruct (alarm ev) as [a0|]; [|done].
    destruct (fire_sem ev s) as [[ev1 s1]| |] eqn:Hfire; try done.
    simpl in H. apply fire_console in Hfire.
    unfold is_repeating in H. destruct (alarm ev1) as [a|]; [|done].
    simpl in H. destruct (repeating a); by injection H as <- <-.
  - unfold broadcast in H. destruct (stamp ev s) as [ev1| |]; try done.
    simpl in H.
    destruct (fan_out _ _ _ _ _ _ _) as [[s1 c]| |] eqn:Hf; try done.
    simpl in H. injection H as <- <-.
    apply fan_out_console in Hf.
    apply (console_untouched_trans _ (listeners_default (event_type ev1) s));
      [|done].
    unfold listeners_default. by destruct (event_listeners s !! event_type ev1).
Qed.


End DebugCounter.

